(** * Blood-donor matching: request lifecycle, donor search, eligibility

    A shallow embedding of the Express/Mongoose handlers of the repository
    ([routes/requests.js], [routes/patients.js], [routes/donors.js]) and of
    the model methods they call ([models/User.js], [models/BloodRequest.js],
    [models/Notification.js]).

    Conventions.
    - A Mongo collection is a finite map from document id to document.
    - A document id, and the user id carried by the auth token, is the
      canonical text of an ObjectId ([toString] of the id).  A route
      parameter [:id] is arbitrary text chosen by the caller: the query
      casts it to an ObjectId or throws [CastError] ([Param]).
    - A string is the UTF-8 text of the JavaScript string; the length
      JavaScript reports counts UTF-16 code units ([utf16_length]).
    - A [Date] is its millisecond timestamp; JavaScript numbers are exact
      rationals (rounding error of IEEE doubles is not modelled).
    - A handler maps the persisted store to an HTTP response and the store
      it leaves behind.  An exception thrown under the handler's [try] is
      the response 500 [Server error], with whatever was saved before it. *)

From Stdlib Require Import ZArith QArith Qround Qabs Lia Lqa Sorted Permutation.
From stdpp Require Import base option list strings gmap fin_maps.

Open Scope string_scope.
Open Scope list_scope.
Open Scope Z_scope.

(** ** JavaScript values met by the handlers *)

Definition Id := string.
Definition Date := Z.

(** A route parameter [:id] as the cast of the query to [ObjectId] sees
    it: text that casts to the id [id], or text for which the cast throws
    [CastError] (as [abc] does).  Which texts cast is the driver's
    business; the handlers only see the outcome. *)
Inductive Param :=
| ObjectIdText (id : Id)
| Malformed (text : string).

(** The number of UTF-16 code units of a string given as UTF-8 text, the
    [length] of the JavaScript string: a continuation byte counts for
    nothing, the lead byte of a four-byte sequence for a surrogate pair. *)
Fixpoint utf16_length (s : string) : nat :=
  match s with
  | EmptyString => 0
  | String c s' =>
      let b := Ascii.N_of_ascii c in
      ((if (b <? 128)%N then 1
        else if (b <? 192)%N then 0
        else if (b <? 240)%N then 1
        else 2) + utf16_length s')%nat
  end.

(** What a property read on a plain object literal can give back: the own
    property (here always an array of strings), a member inherited from
    [Object.prototype], or [undefined]. *)
Inductive JsValue :=
| JArr (l : list string)
| JInherited (name : string)
| JUndefined.

(** The property names every object literal inherits from [Object.prototype]. *)
Definition Object_prototype_keys : list string :=
  [ "constructor"; "__proto__"; "hasOwnProperty"; "isPrototypeOf";
    "propertyIsEnumerable"; "toLocaleString"; "toString"; "valueOf";
    "__defineGetter__"; "__defineSetter__"; "__lookupGetter__";
    "__lookupSetter__" ].

(** [obj[key]] on an object literal whose own properties are [own]. *)
Definition js_get (own : gmap string (list string)) (key : string) : JsValue :=
  match own !! key with
  | Some v => JArr v
  | None => if bool_decide (key ∈ Object_prototype_keys)
            then JInherited key else JUndefined
  end.

(** [v || []]: arrays (empty ones too), functions and objects are truthy. *)
Definition js_or_empty (v : JsValue) : JsValue :=
  match v with
  | JUndefined => JArr []
  | _ => v
  end.

(** Truthiness of a value that is a string or [undefined]. *)
Definition truthy (s : option string) : bool :=
  match s with
  | Some s => negb (bool_decide (s = ""))
  | None => false
  end.

(** A JavaScript number: a finite value or [NaN]. *)
Inductive JsNum :=
| JNum (q : Q)
| JNaN.

(** ** models/User.js *)

Record MedicalEntry := {
  condition : string;
  med_date : Date;
  med_notes : string
}.

(** A user document.  [password] and [medicalHistory] are optional because
    a query may deselect them; [bloodType] and [location] are optional in
    the schema (required for donors only).  [location] is
    [(longitude, latitude)].  The address, the emergency contact, the
    avatar and the two timestamps Mongoose maintains are left out: no
    route under study reads or writes them. *)
Record User := {
  name : string;
  email : string;
  password : option string;
  phone : string;
  userType : string;
  u_bloodType : option string;
  location : option (Q * Q);
  isVerified : bool;
  lastDonationDate : option Date;
  isAvailable : bool;
  medicalHistory : option (list MedicalEntry)
}.

(** [(Date.now() - this.lastDonationDate.getTime()) / (1000 * 60 * 60 * 24)] *)
Definition daysSinceLastDonation (now last : Date) : Q :=
  (inject_Z (now - last) / inject_Z (1000 * 60 * 60 * 24))%Q.

(** [userSchema.methods.isEligibleToDonate], evaluated when [Date.now()]
    reads [now]. *)
Definition isEligibleToDonate (now : Date) (u : User) : bool :=
  if negb (bool_decide (userType u = "donor")) then false
  else if negb (isAvailable u) then false
  else if negb (isVerified u) then false
  else match lastDonationDate u with
       | Some last =>
           if negb (Qle_bool 56 (daysSinceLastDonation now last)) then false
           else true
       | None => true
       end.

(** ** Blood-type compatibility

    The object literal both [getCompatibleBloodTypes] helpers build. *)

Definition compatibility : gmap string (list string) :=
  list_to_map
    [ ("A+",  ["A+"; "A-"; "O+"; "O-"]);
      ("A-",  ["A-"; "O-"]);
      ("B+",  ["B+"; "B-"; "O+"; "O-"]);
      ("B-",  ["B-"; "O-"]);
      ("AB+", ["A+"; "A-"; "B+"; "B-"; "AB+"; "AB-"; "O+"; "O-"]);
      ("AB-", ["A-"; "B-"; "AB-"; "O-"]);
      ("O+",  ["O+"; "O-"]);
      ("O-",  ["O-"]) ].


(** ** models/BloodRequest.js *)

Record MatchedDonor := {
  donor : Id;
  md_status : string;
  matchedAt : Date;
  respondedAt : option Date;
  md_notes : option string
}.

(** The hospital descriptor; [coordinates] is [[longitude, latitude]].
    Address and contact are free text no handler reads, and are left out,
    as are the [createdAt] and [updatedAt] of the request. *)
Record Hospital := {
  h_name : string;
  coordinates : list Q
}.

Record BloodRequest := {
  patient : Id;
  bloodType : string;
  urgency : string;
  hospital : Hospital;
  status : string;
  matchedDonors : list MatchedDonor;
  requiredUnits : Z;
  description : option string;
  medicalNotes : option string;
  completedAt : option Date;
  cancelledAt : option Date;
  cancellationReason : option string
}.

Definition bloodType_enum : list string :=
  ["A+"; "A-"; "B+"; "B-"; "AB+"; "AB-"; "O+"; "O-"].
Definition urgency_enum : list string := ["low"; "medium"; "high"; "critical"].
Definition status_enum : list string :=
  ["active"; "matched"; "completed"; "cancelled"].
Definition md_status_enum : list string :=
  ["pending"; "accepted"; "declined"; "completed"].

(** The [maxlength] validator of a schema string: [v.length <= n]. *)
Definition maxlength (n : nat) (s : option string) : bool :=
  match s with
  | Some s => bool_decide (utf16_length s ≤ n)%nat
  | None => true
  end.

(** The schema validators [save] runs on a request document. *)
Definition BloodRequest_validate (r : BloodRequest) : bool :=
  bool_decide (bloodType r ∈ bloodType_enum)
  && bool_decide (urgency r ∈ urgency_enum)
  && negb (bool_decide (h_name (hospital r) = ""))
  && bool_decide (status r ∈ status_enum)
  && forallb (λ m, bool_decide (md_status m ∈ md_status_enum)) (matchedDonors r)
  && bool_decide (1 ≤ requiredUnits r)
  && maxlength 500 (description r)
  && maxlength 1000 (medicalNotes r).

Definition set_status (s : string) (r : BloodRequest) : BloodRequest :=
  {| patient := patient r; bloodType := bloodType r; urgency := urgency r;
     hospital := hospital r; status := s; matchedDonors := matchedDonors r;
     requiredUnits := requiredUnits r; description := description r;
     medicalNotes := medicalNotes r; completedAt := completedAt r;
     cancelledAt := cancelledAt r;
     cancellationReason := cancellationReason r |}.

Definition set_matchedDonors (l : list MatchedDonor) (r : BloodRequest)
  : BloodRequest :=
  {| patient := patient r; bloodType := bloodType r; urgency := urgency r;
     hospital := hospital r; status := status r; matchedDonors := l;
     requiredUnits := requiredUnits r; description := description r;
     medicalNotes := medicalNotes r; completedAt := completedAt r;
     cancelledAt := cancelledAt r;
     cancellationReason := cancellationReason r |}.

Definition set_completedAt (d : Date) (r : BloodRequest) : BloodRequest :=
  {| patient := patient r; bloodType := bloodType r; urgency := urgency r;
     hospital := hospital r; status := status r;
     matchedDonors := matchedDonors r;
     requiredUnits := requiredUnits r; description := description r;
     medicalNotes := medicalNotes r; completedAt := Some d;
     cancelledAt := cancelledAt r;
     cancellationReason := cancellationReason r |}.

Module BloodRequestModel.
(** [bloodRequestSchema.methods.getCompatibleBloodTypes] *)
Definition getCompatibleBloodTypes (this : BloodRequest) : JsValue :=
  js_or_empty (js_get compatibility (bloodType this)).

(** [bloodRequestSchema.methods.isActive] *)
Definition isActive (this : BloodRequest) : bool :=
  bool_decide (status this = "active")
  || bool_decide (status this = "matched").
End BloodRequestModel.

(** ** models/Notification.js *)

Record Notification := {
  recipient : Id;
  n_type : string;
  title : string;
  message : string;
  data_requestId : Id;
  data_donorId : Id;
  priority : string
}.

Definition notification_type_enum : list string :=
  ["blood_request"; "donor_match"; "request_update"; "donation_reminder";
   "system_alert"].
Definition priority_enum : list string := ["low"; "medium"; "high"; "urgent"].

Definition Notification_validate (n : Notification) : bool :=
  negb (bool_decide (recipient n = ""))
  && bool_decide (n_type n ∈ notification_type_enum)
  && negb (bool_decide (title n = ""))
  && negb (bool_decide (message n = ""))
  && bool_decide (priority n ∈ priority_enum).

(** ** The persisted store and HTTP responses *)

Record Store := {
  requests : gmap Id BloodRequest;
  users : gmap Id User;
  notifications : list Notification
}.

Definition with_requests (rs : gmap Id BloodRequest) (st : Store) : Store :=
  {| requests := rs; users := users st; notifications := notifications st |}.
Definition with_users (us : gmap Id User) (st : Store) : Store :=
  {| requests := requests st; users := us; notifications := notifications st |}.
Definition with_notifications (ns : list Notification) (st : Store) : Store :=
  {| requests := requests st; users := users st; notifications := ns |}.

(** [res.status(code).json({ message, request })] and
    [res.status(code).json({ errors })]. *)
Inductive Response :=
| Json (code : Z) (msg : string) (request : option BloodRequest)
| JsonErrors (code : Z) (errors : list string).

Definition http_status (r : Response) : Z :=
  match r with
  | Json c _ _ => c
  | JsonErrors c _ => c
  end.

(** What every handler's [catch] answers. *)
Definition server_error : Response := Json 500 "Server error" None.

(** [notification.save()]: the schema validators, then the write, which
    the notification store accepts or not ([sinkOk]). *)
Definition Notification_save (sinkOk : bool) (n : Notification) (st : Store)
  : option Store :=
  if Notification_validate n && sinkOk
  then Some (with_notifications (notifications st ++ [n]) st)
  else None.

(** ** routes/requests.js *)

Module Requests.

(** The entry [existingMatch] after the three assignments of the
    update branch. *)
Definition update_match (newStatus : string) (now : Date)
    (notes : option string) (m : MatchedDonor) : MatchedDonor :=
  {| donor := donor m; md_status := newStatus; matchedAt := matchedAt m;
     respondedAt := Some now; md_notes := notes |}.

(** The sub-document [push] builds; [matchedAt] takes its schema default
    [Date.now], read at [now']. *)
Definition new_match (donorId : Id) (newStatus : string) (now now' : Date)
    (notes : option string) : MatchedDonor :=
  {| donor := donorId; md_status := newStatus; matchedAt := now';
     respondedAt := Some now; md_notes := notes |}.

(** Find-or-append on [request.matchedDonors]: [find] gives the first
    entry of the donor, which is then updated where it stands. *)
Definition record_response (donorId : Id) (newStatus : string)
    (now now' : Date) (notes : option string) (l : list MatchedDonor)
  : list MatchedDonor :=
  match list_find (λ m, donor m = donorId) l with
  | Some (i, existingMatch) =>
      <[i := update_match newStatus now notes existingMatch]> l
  | None => l ++ [new_match donorId newStatus now now' notes]
  end.

(** The request document as it stands when [request.save()] is called. *)
Definition responded (donorId : Id) (newStatus : string) (now now' : Date)
    (notes : option string) (request : BloodRequest) : BloodRequest :=
  let request1 :=
    set_matchedDonors
      (record_response donorId newStatus now now' notes (matchedDonors request))
      request in
  if bool_decide (newStatus = "accepted")
     && bool_decide (status request1 = "active")
  then set_status "matched" request1
  else request1.

Definition donor_response_notification (request : BloodRequest)
    (requestId donorId : Id) (newStatus : string) : Notification :=
  {| recipient := patient request;
     n_type := "donor_response";
     title := "Donor Response";
     message := "A donor has " +:+ newStatus +:+ " your blood request";
     data_requestId := requestId;
     data_donorId := donorId;
     priority := if bool_decide (newStatus = "accepted")
                 then "high" else "medium" |}.

(** [POST /:id/respond].  [user] is [req.user?.userId]; [now] and [now']
    are the clock readings of [new Date()] and of the [matchedAt]
    default.  The two validators declared on the route are never read
    (the handler does not call [validationResult]), so any [status] and
    any [notes] get this far.  [findById] throws on a parameter that does
    not cast. *)
Definition respond (now now' : Date) (sinkOk : bool) (user : option Id)
    (requestId : Param) (newStatus : string) (notes : option string)
    (st : Store) : Response * Store :=
  match user with
  | Some donorId =>
    if negb (truthy user)
    then (Json 401 "Authentication required" None, st)
    else
      match requestId with
      | Malformed _ => (server_error, st)
      | ObjectIdText requestId =>
      match requests st !! requestId with
      | None => (Json 404 "Request not found" None, st)
      | Some request =>
        if negb (bool_decide (status request = "active"))
           && negb (bool_decide (status request = "matched"))
        then (Json 400 "Request is no longer active" None, st)
        else
          let request' := responded donorId newStatus now now' notes request in
          if negb (BloodRequest_validate request')
          then (server_error, st)
          else
            let st1 := with_requests (<[requestId := request']> (requests st)) st in
            match Notification_save sinkOk
                    (donor_response_notification request' requestId donorId newStatus)
                    st1 with
            | Some st2 =>
                (Json 200 ("Response " +:+ newStatus +:+ " successfully")
                      (Some request'), st2)
            | None => (server_error, st1)
            end
      end
      end
  | None => (Json 401 "Authentication required" None, st)
  end.

(** [User.findByIdAndUpdate(id, { lastDonationDate, isAvailable: false })]:
    no document with that id, no change. *)
Definition mark_donated (now : Date) (u : User) : User :=
  {| name := name u; email := email u; password := password u;
     phone := phone u; userType := userType u;
     u_bloodType := u_bloodType u; location := location u;
     isVerified := isVerified u; lastDonationDate := Some now;
     isAvailable := false; medicalHistory := medicalHistory u |}.

(** [POST /:id/complete].  [now] is read for [completedAt], [now'] for
    the donor's [lastDonationDate].  [findById] throws on a parameter
    that does not cast. *)
Definition complete (now now' : Date) (user : option Id) (requestId : Param)
    (st : Store) : Response * Store :=
  match user with
  | Some userId =>
    if negb (truthy user)
    then (Json 401 "Authentication required" None, st)
    else
      match requestId with
      | Malformed _ => (server_error, st)
      | ObjectIdText requestId =>
      match requests st !! requestId with
      | None => (Json 404 "Request not found" None, st)
      | Some request =>
        let isPatient := bool_decide (patient request = userId) in
        let isAcceptedDonor :=
          existsb (λ m, bool_decide (donor m = userId)
                        && bool_decide (md_status m = "accepted"))
                  (matchedDonors request) in
        if negb isPatient && negb isAcceptedDonor
        then (Json 403 "Not authorized to complete this request" None, st)
        else if negb (bool_decide (status request = "matched"))
        then (Json 400 "Request is not in matched status" None, st)
        else
          let request' := set_completedAt now (set_status "completed" request) in
          let acceptedDonor :=
            find (λ m, bool_decide (md_status m = "accepted"))
                 (matchedDonors request') in
          let st1 :=
            match acceptedDonor with
            | Some m => with_users (alter (mark_donated now') (donor m) (users st)) st
            | None => st
            end in
          if negb (BloodRequest_validate request')
          then (server_error, st1)
          else (Json 200 "Request completed successfully" (Some request'),
                with_requests (<[requestId := request']> (requests st1)) st1)
      end
      end
  | None => (Json 401 "Authentication required" None, st)
  end.

End Requests.

(** ** routes/patients.js *)

Module Patients.

(** The body of [POST /request], after [express.json()] parsed it.  A
    field is [None] when the body does not carry it; [requiredUnits],
    when carried, is a number of integral value. *)
Record CreateBody := {
  cb_bloodType : option string;
  cb_urgency : option string;
  cb_hospital_name : option string;
  cb_coordinates : option (list Q);
  cb_requiredUnits : option Z;
  cb_description : option string;
  cb_medicalNotes : option string
}.

(** [isInt({ min: 1 })] on a number of integral value.  The validator
    tests the text [String(n)]: decimal digits up to 10^21 excluded,
    exponent notation ([1e+21]) from there on, which is no integer
    literal. *)
Definition isInt_min_1 (n : Z) : bool :=
  bool_decide (n < 10 ^ 21) && bool_decide (1 ≤ n).

(** The express-validator chain of [POST /request]: the messages of the
    checks that fail, in order. *)
Definition validationResult (b : CreateBody) : list string :=
  (if bool_decide (default "" (cb_bloodType b) ∈ bloodType_enum)
   then [] else ["Invalid blood type"])
  ++ (if bool_decide (default "" (cb_urgency b) ∈ urgency_enum)
      then [] else ["Invalid urgency level"])
  ++ (if truthy (cb_hospital_name b)
      then [] else ["Hospital name is required"])
  ++ (match cb_coordinates b with
      | Some [_; _] => []
      | _ => ["Hospital coordinates are required"]
      end)
  ++ (match cb_requiredUnits b with
      | Some n => if isInt_min_1 n then []
                  else ["Required units must be at least 1"]
      | None => []
      end).

(** [new BloodRequest({ patient: userId, bloodType, ... })] with the
    schema defaults ([status] active, no matched donor). *)
Definition new_request (userId : Id) (b : CreateBody) : BloodRequest :=
  {| patient := userId;
     bloodType := default "" (cb_bloodType b);
     urgency := default "" (cb_urgency b);
     hospital := {| h_name := default "" (cb_hospital_name b);
                    coordinates := default [] (cb_coordinates b) |};
     status := "active";
     matchedDonors := [];
     requiredUnits := default 1 (cb_requiredUnits b);
     description := cb_description b;
     medicalNotes := cb_medicalNotes b;
     completedAt := None;
     cancelledAt := None;
     cancellationReason := None |}.

(** The [2dsphere] index the schema puts on [hospital.location]: the
    collection refuses a point that is not a longitude within [-180, 180]
    and a latitude within [-90, 90]. *)
Definition geo_index_accepts (h : Hospital) : bool :=
  match coordinates h with
  | [lng; lat] =>
      Qle_bool (-180) lng && Qle_bool lng 180
      && Qle_bool (-90) lat && Qle_bool lat 90
  | _ => false
  end.

(** [POST /request].  [newId] is the [_id] the driver generates; the
    collection refuses a document its geospatial index cannot take, and a
    second document under an id it already holds. *)
Definition createRequest (newId : Id) (user : option Id) (b : CreateBody)
    (st : Store) : Response * Store :=
  match validationResult b with
  | (_ :: _) as errors => (JsonErrors 400 errors, st)
  | [] =>
    match user with
    | Some userId =>
      if negb (truthy user)
      then (Json 401 "Authentication required" None, st)
      else
        let bloodRequest := new_request userId b in
        if negb (BloodRequest_validate bloodRequest)
        then (server_error, st)
        else if negb (geo_index_accepts (hospital bloodRequest))
        then (server_error, st)
        else
          match requests st !! newId with
          | Some _ => (server_error, st)
          | None =>
              (Json 201 "Blood request created successfully" (Some bloodRequest),
               with_requests (<[newId := bloodRequest]> (requests st)) st)
          end
    | None => (Json 401 "Authentication required" None, st)
    end
  end.

(** The update document of the cancellation; a key whose value is
    [undefined] is left out of the update. *)
Definition cancelled (now : Date) (reason : option string)
    (r : BloodRequest) : BloodRequest :=
  {| patient := patient r; bloodType := bloodType r; urgency := urgency r;
     hospital := hospital r; status := "cancelled";
     matchedDonors := matchedDonors r;
     requiredUnits := requiredUnits r; description := description r;
     medicalNotes := medicalNotes r; completedAt := completedAt r;
     cancelledAt := Some now;
     cancellationReason :=
       match reason with
       | Some _ => reason
       | None => cancellationReason r
       end |}.

(** The filter of [findOneAndUpdate] in the cancel route:
    [{ _id, patient: userId, status: { $in: ['active', 'matched'] } }]. *)
Definition cancellable (userId : Id) (r : BloodRequest) : bool :=
  bool_decide (patient r = userId)
  && bool_decide (status r ∈ ["active"; "matched"]).

(** [PUT /requests/:id/cancel].  The cast of the filter of
    [findOneAndUpdate] throws on a parameter that does not cast.  The
    validator declared on [reason] is never read. *)
Definition cancel (now : Date) (user : option Id) (requestId : Param)
    (reason : option string) (st : Store) : Response * Store :=
  match user with
  | Some userId =>
    if negb (truthy user)
    then (Json 401 "Authentication required" None, st)
    else
      match requestId with
      | Malformed _ => (server_error, st)
      | ObjectIdText requestId =>
      match requests st !! requestId with
      | Some r =>
        if cancellable userId r
        then
          let request := cancelled now reason r in
          (Json 200 "Request cancelled successfully" (Some request),
           with_requests (<[requestId := request]> (requests st)) st)
        else (Json 404 "Request not found or cannot be cancelled" None, st)
      | None => (Json 404 "Request not found or cannot be cancelled" None, st)
      end
      end
  | None => (Json 401 "Authentication required" None, st)
  end.

End Patients.

(** ** routes/donors.js *)

(** A JSON value of a response body. *)
#[warnings="-register-all"]
Inductive Value :=
| VStr (s : string)
| VNum (q : Q)
| VBool (b : bool)
| VDate (d : Date)
| VNull
| VList (l : list Value)
| VObj (fields : list (string * Value)).

(** An object as its own properties, in insertion order. *)
Definition Obj := list (string * Value).

Definition obj_get (key : string) (o : Obj) : option Value :=
  snd <$> find (λ kv, bool_decide (kv.1 = key)) o.

(** [{ ...o, key: v }] *)
Fixpoint obj_set (key : string) (v : Value) (o : Obj) : Obj :=
  match o with
  | [] => [(key, v)]
  | (k, w) :: o' =>
      if bool_decide (k = key) then (k, v) :: o'
      else (k, w) :: obj_set key v o'
  end.

(** What the handler takes from outside the repository: two built-ins of
    the language, the document store's geospatial query and query cast,
    and [geolib]. *)
Class External := {
  (** the global [parseFloat] *)
  parseFloat : string → JsNum;
  (** the conversion [radius * 1000] applies to a string operand *)
  toNumber : string → JsNum;
  (** whether the store accepts a [$near] operand
      (longitude, latitude, [$maxDistance]) *)
  near_accepts : Q → Q → Q → bool;
  (** the metres the store measures from the query point (longitude,
      latitude) to a document's location *)
  near_distance : Q * Q → Q * Q → Q;
  (** [geolib.getDistance], metres, on points (latitude, longitude) *)
  getDistance : Q * Q → Q * Q → Z;
  (** what the query cast makes of an [$in] operand that is a member of
      [Object.prototype] instead of an array; [None] is a cast error *)
  cast_in_operand : string → option (list string)
}.

(** Stable insertion sort by a numeric key, ascending: the order
    [Array.prototype.sort] gives with the comparator [a.k - b.k]. *)
Fixpoint insert_by {A} (key : A → Q) (x : A) (l : list A) : list A :=
  match l with
  | [] => [x]
  | y :: l' =>
      if Qle_bool (key x) (key y) then x :: y :: l'
      else y :: insert_by key x l'
  end.

Fixpoint sort_by {A} (key : A → Q) (l : list A) : list A :=
  match l with
  | [] => []
  | x :: l' => insert_by key x (sort_by key l')
  end.


(** [Math.round] *)
Definition Math_round (x : Q) : Z := Qfloor (x + (1 # 2))%Q.

Module Donors.

(** [getCompatibleBloodTypes(bloodType)] *)
Definition getCompatibleBloodTypes (bloodType : string) : JsValue :=
  js_or_empty (js_get compatibility bloodType).

(** The query string of [GET /available]. *)
Record Query := {
  q_bloodType : option string;
  q_lat : option string;
  q_lng : option string;
  q_radius : option string
}.

(** [.select('-password -medicalHistory')] *)
Definition select_public (u : User) : User :=
  {| name := name u; email := email u; password := None;
     phone := phone u; userType := userType u;
     u_bloodType := u_bloodType u; location := location u;
     isVerified := isVerified u; lastDonationDate := lastDonationDate u;
     isAvailable := isAvailable u; medicalHistory := None |}.

Definition MedicalEntry_toObject (e : MedicalEntry) : Value :=
  VObj [("condition", VStr (condition e)); ("date", VDate (med_date e));
        ("notes", VStr (med_notes e))].

(** [donor.toObject()]: the fields the document holds. *)
Definition toObject (d : Id * User) : Obj :=
  let u := d.2 in
  [("_id", VStr d.1); ("name", VStr (name u)); ("email", VStr (email u))]
  ++ (match password u with Some p => [("password", VStr p)] | None => [] end)
  ++ [("phone", VStr (phone u)); ("userType", VStr (userType u))]
  ++ (match u_bloodType u with Some b => [("bloodType", VStr b)] | None => [] end)
  ++ (match location u with
      | Some (lng, lat) =>
          [("location", VObj [("type", VStr "Point");
                              ("coordinates", VList [VNum lng; VNum lat])])]
      | None => []
      end)
  ++ [("isVerified", VBool (isVerified u));
      ("lastDonationDate",
       match lastDonationDate u with Some t => VDate t | None => VNull end);
      ("isAvailable", VBool (isAvailable u))]
  ++ (match medicalHistory u with
      | Some h => [("medicalHistory", VList (MedicalEntry_toObject <$> h))]
      | None => []
      end).

(** The [bloodType] condition of the query: [{ $in: ... }] when the
    parameter is truthy, [{ $exists: true }] otherwise.  [None] when the
    cast of the [$in] operand fails. *)
Definition bloodType_condition {E : External} (bloodType : option string)
  : option (option string → bool) :=
  if truthy bloodType then
    match getCompatibleBloodTypes (default "" bloodType) with
    | JArr l => Some (λ b, match b with
                           | Some b => bool_decide (b ∈ l)
                           | None => false
                           end)
    | JInherited k =>
        match cast_in_operand k with
        | Some l => Some (λ b, match b with
                               | Some b => bool_decide (b ∈ l)
                               | None => false
                               end)
        | None => None
        end
    | JUndefined => Some (λ _, false)
    end
  else Some (λ b, match b with Some _ => true | None => false end).

(** The key [$near] sorts by; documents without a location never match. *)
Definition near_key {E : External} (origin : Q * Q) (d : Id * User) : Q :=
  match location d.2 with
  | Some p => near_distance origin p
  | None => 0
  end.

(** The filter of [User.find({ userType: 'donor', isAvailable: true,
    isVerified: true, bloodType: ..., location: { $near: ... } })]. *)
Definition matches_query {E : External} (bt : option string → bool)
    (lng lat maxDistance : Q) (d : Id * User) : bool :=
  bool_decide (userType d.2 = "donor")
  && isAvailable d.2
  && isVerified d.2
  && bt (u_bloodType d.2)
  && match location d.2 with
     | Some p => Qle_bool (near_distance (lng, lat) p) maxDistance
     | None => false
     end.

(** The documents the query gives, nearest first. *)
Definition find_donors {E : External} (bt : option string → bool)
    (lng lat maxDistance : Q) (us : gmap Id User) : list (Id * User) :=
  sort_by (near_key (lng, lat))
    (filter (λ d, matches_query bt lng lat maxDistance d = true)
            (map_to_list us)).

(** [Math.round(distance / 1000 * 10) / 10] *)
Definition to_km (distance : Z) : Q :=
  (inject_Z (Math_round (inject_Z distance / 1000 * 10)) / 10)%Q.

(** The [distance] property the comparator reads. *)
Definition distance_of (o : Obj) : Q :=
  match obj_get "distance" o with
  | Some (VNum q) => q
  | _ => 0
  end.

(** One element of [eligibleDonors] before the sort. *)
Definition with_distance {E : External} (lat lng : Q) (d : Id * User) : Obj :=
  let distance :=
    match location d.2 with
    | Some (dlng, dlat) => getDistance (lat, lng) (dlat, dlng)
    | None => 0
    end in
  obj_set "distance" (VNum (to_km distance)) (toObject d).

Inductive Result :=
| Ok (donors : list Obj)
| Error (code : Z) (msg : string).

(** [GET /available].  [now id] is what [Date.now()] reads when
    [isEligibleToDonate] runs on the donor [id]: the filter calls the
    method, and with it the clock, once per document. *)
Definition available {E : External} (now : Id → Date) (q : Query) (st : Store)
  : Result :=
  if negb (truthy (q_lat q)) || negb (truthy (q_lng q))
  then Error 400 "Latitude and longitude are required"
  else
    let radius :=
      match q_radius q with
      | Some r => toNumber r
      | None => JNum 50
      end in
    match bloodType_condition (q_bloodType q),
          parseFloat (default "" (q_lng q)),
          parseFloat (default "" (q_lat q)),
          radius with
    | Some bt, JNum lng, JNum lat, JNum radius =>
        if near_accepts lng lat (radius * 1000)%Q then
          let donors :=
            (λ d : Id * User, (d.1, select_public d.2))
              <$> find_donors bt lng lat (radius * 1000)%Q (users st) in
          Ok (sort_by distance_of
                (with_distance lat lng
                   <$> filter (λ d : Id * User,
                                 isEligibleToDonate (now d.1) d.2 = true)
                              donors))
        else Error 500 "Server error"
    | _, _, _, _ => Error 500 "Server error"
    end.

End Donors.

(** ** routes/donors.js, [PUT /availability] *)

Module DonorAccount.

(** [.select('-password')] *)
Definition without_password (u : User) : User :=
  {| name := name u; email := email u; password := None;
     phone := phone u; userType := userType u;
     u_bloodType := u_bloodType u; location := location u;
     isVerified := isVerified u; lastDonationDate := lastDonationDate u;
     isAvailable := isAvailable u; medicalHistory := medicalHistory u |}.

(** The document after [updateData] is applied: each of the two fields is
    set when [updateData] has it. *)
Definition updated (available : option bool) (last : option Date)
    (u : User) : User :=
  {| name := name u; email := email u; password := password u;
     phone := phone u; userType := userType u;
     u_bloodType := u_bloodType u; location := location u;
     isVerified := isVerified u;
     lastDonationDate :=
       match last with
       | Some t => Some t
       | None => lastDonationDate u
       end;
     isAvailable := default (isAvailable u) available;
     medicalHistory := medicalHistory u |}.

(** [res.status(code).json({ message, donor })] *)
Inductive Reply :=
| DonorJson (code : Z) (msg : string) (donor : option Obj).

(** [PUT /availability].  [available] is the boolean [isAvailable] of the
    body, [None] when the body has none ([undefined]).  [last] is [None]
    when the body has no [lastDonationDate] or a falsy one, [Some None]
    when [new Date(...)] of it is an invalid date, which the cast of the
    update refuses, and [Some (Some t)] when it is the date [t]. *)
Definition availability (user : option Id) (available : option bool)
    (last : option (option Date)) (st : Store) : Reply * Store :=
  match user with
  | Some userId =>
    if negb (truthy user)
    then (DonorJson 401 "Authentication required" None, st)
    else
      match last with
      | Some None => (DonorJson 500 "Server error" None, st)
      | _ =>
        match users st !! userId with
        | Some u =>
            let donor := updated available (mjoin last) u in
            (DonorJson 200 "Availability updated successfully"
               (Some (Donors.toObject (userId, without_password donor))),
             with_users (<[userId := donor]> (users st)) st)
        | None => (DonorJson 404 "Donor not found" None, st)
        end
      end
  | None => (DonorJson 401 "Authentication required" None, st)
  end.

End DonorAccount.

(** ** routes/requests.js, [GET /stats/overview] and [GET /active] *)

Module Overview.

(** [{ $group: { _id: '$key', count: { $sum: 1 } } }]: one group per value
    of the key met in the collection, with the number of documents that
    have it. *)
Definition group_count (key : BloodRequest → string)
    (docs : list BloodRequest) : list (string * nat) :=
  (λ k, (k, length (filter (λ r, key r = k) docs)))
    <$> remove_dups (key <$> docs).

Record Stats := {
  totalRequests : nat;
  activeRequests : nat;
  statusBreakdown : list (string * nat);
  urgencyBreakdown : list (string * nat)
}.

(** The body of the answer of [GET /stats/overview]. *)
Definition overview (st : Store) : Stats :=
  let docs := (map_to_list (requests st)).*2 in
  {| totalRequests := length docs;
     activeRequests :=
       length (filter (λ r, status r ∈ ["active"; "matched"]) docs);
     statusBreakdown := group_count status docs;
     urgencyBreakdown := group_count urgency docs |}.

(** The count a breakdown gives for a key, none being zero. *)
Definition count_of (key : string) (breakdown : list (string * nat)) : nat :=
  default 0%nat ((list_to_map breakdown : gmap string nat) !! key).

End Overview.

Module Listing.

(** The query of [GET /active]: active or matched, and of the blood type
    and the urgency asked for, when asked for. *)
Definition matches (bloodTypeAsked urgencyAsked : option string)
    (d : Id * BloodRequest) : bool :=
  bool_decide (status d.2 ∈ ["active"; "matched"])
  && (if truthy bloodTypeAsked
      then bool_decide (bloodType d.2 = default "" bloodTypeAsked)
      else true)
  && (if truthy urgencyAsked
      then bool_decide (urgency d.2 = default "" urgencyAsked)
      else true).

(** [.sort({ urgency: -1, createdAt: -1 })]: [a] may stand before [b].
    The store compares strings byte by byte.  [createdAt id] is the
    creation time Mongoose stamped on the document [id]. *)
Definition precedes (createdAt : Id → Date) (a b : Id * BloodRequest) : bool :=
  if bool_decide (urgency a.2 = urgency b.2)
  then bool_decide (createdAt b.1 ≤ createdAt a.1)
  else String.leb (urgency b.2) (urgency a.2).

Fixpoint insert_with {A} (le : A → A → bool) (x : A) (l : list A) : list A :=
  match l with
  | [] => [x]
  | y :: l' => if le x y then x :: y :: l' else y :: insert_with le x l'
  end.

Fixpoint sort_with {A} (le : A → A → bool) (l : list A) : list A :=
  match l with
  | [] => []
  | x :: l' => insert_with le x (sort_with le l')
  end.

(** The documents [GET /active] lists, in order, before their references
    are populated.  [within] is the test of the location filter (the
    hospital has coordinates whose [calculateDistance] from the point
    given is at most the radius); it is applied when both [lat] and [lng]
    are given. *)
Definition active (createdAt : Id → Date) (within : BloodRequest → bool)
    (bloodTypeAsked urgencyAsked lat lng : option string) (st : Store)
  : list (Id * BloodRequest) :=
  let listed :=
    sort_with (precedes createdAt)
      (filter (λ d, matches bloodTypeAsked urgencyAsked d = true)
              (map_to_list (requests st))) in
  if truthy lat && truthy lng
  then filter (λ d, within d.2 = true) listed
  else listed.

End Listing.

(** ** The request lifecycle as a transition system *)

(** The four operations of the request lifecycle (§4.5 of the
    specification) as calls of their routes: [POST /request],
    [POST /:id/respond], [POST /:id/complete] and
    [PUT /requests/:id/cancel].  The repository has one more route that
    writes requests, [PUT /requests/:id], which hands the request body to
    [findOneAndUpdate] as the update; it is no lifecycle operation and is
    not among these: what is stated for every [Op] is stated for these
    four routes. *)
Inductive Op :=
| CreateRequest (newId : Id) (user : option Id) (body : Patients.CreateBody)
| RecordDonorResponse (now now' : Date) (sinkOk : bool) (user : option Id)
    (requestId : Param) (newStatus : string) (notes : option string)
| CompleteRequest (now now' : Date) (user : option Id) (requestId : Param)
| CancelRequest (now : Date) (user : option Id) (requestId : Param)
    (reason : option string).

Definition run (op : Op) (st : Store) : Response * Store :=
  match op with
  | CreateRequest newId user body => Patients.createRequest newId user body st
  | RecordDonorResponse now now' sinkOk user requestId newStatus notes =>
      Requests.respond now now' sinkOk user requestId newStatus notes st
  | CompleteRequest now now' user requestId =>
      Requests.complete now now' user requestId st
  | CancelRequest now user requestId reason =>
      Patients.cancel now user requestId reason st
  end.

(** The operations of the lifecycle as the specification has them: a
    donor answers [accepted] or [declined].  (The route itself takes any
    status, and saves those the schema lists.) *)
Definition lifecycle (op : Op) : Prop :=
  match op with
  | RecordDonorResponse _ _ _ _ _ newStatus _ =>
      newStatus = "accepted" ∨ newStatus = "declined"
  | _ => True
  end.

(** The stores these operations reach from a store without requests. *)
Inductive reachable : Store → Prop :=
| reachable_init us :
    reachable {| requests := ∅; users := us; notifications := [] |}
| reachable_step op st :
    reachable st → lifecycle op → reachable (run op st).2.

Definition has_accepted (r : BloodRequest) : Prop :=
  ∃ m, m ∈ matchedDonors r ∧ md_status m = "accepted".

(** A [matched] request has an accepted donor. *)
Definition matched_has_accepted (st : Store) : Prop :=
  ∀ id r, requests st !! id = Some r → status r = "matched" → has_accepted r.

(** The operation is not a [declined] answer of the last accepted donor:
    for such an answer on a matched request, a donor other than the one
    answering is accepted. *)
Definition leaves_an_accepted (op : Op) (st : Store) : Prop :=
  match op with
  | RecordDonorResponse _ _ _ (Some donorId) (ObjectIdText requestId)
      newStatus _ =>
      newStatus = "declined" →
      ∀ r, requests st !! requestId = Some r → status r = "matched" →
           ∃ m, m ∈ matchedDonors r ∧ donor m ≠ donorId
                ∧ md_status m = "accepted"
  | _ => True
  end.

(** Every stored request passes the schema validators. *)
Definition store_valid (st : Store) : Prop :=
  ∀ id r, requests st !! id = Some r → BloodRequest_validate r = true.

(** At most one matched-donor entry per donor. *)
Definition one_entry_per_donor (r : BloodRequest) : Prop :=
  NoDup (donor <$> matchedDonors r).

(** The number of matched-donor entries of a donor in a list. *)
Definition entries_of (d : Id) (l : list MatchedDonor) : nat :=
  length (filter (λ m, donor m = d) l).

(** ** The compatibility table as the specification prints it (§4.1) *)

Definition CompatibleDonorTypes (recipient : string) : list string :=
  if bool_decide (recipient = "A+") then ["A+"; "A-"; "O+"; "O-"]
  else if bool_decide (recipient = "A-") then ["A-"; "O-"]
  else if bool_decide (recipient = "B+") then ["B+"; "B-"; "O+"; "O-"]
  else if bool_decide (recipient = "B-") then ["B-"; "O-"]
  else if bool_decide (recipient = "AB+")
       then ["A+"; "A-"; "B+"; "B-"; "AB+"; "AB-"; "O+"; "O-"]
  else if bool_decide (recipient = "AB-") then ["A-"; "B-"; "AB-"; "O-"]
  else if bool_decide (recipient = "O+") then ["O+"; "O-"]
  else if bool_decide (recipient = "O-") then ["O-"]
  else [].

(** One day in milliseconds. *)
Definition day : Z := 1000 * 60 * 60 * 24.

(** ** Sample data *)

Definition sample_body : Patients.CreateBody :=
  {| Patients.cb_bloodType := Some "O-";
     Patients.cb_urgency := Some "critical";
     Patients.cb_hospital_name := Some "General";
     Patients.cb_coordinates := Some [(774 # 10)%Q; (129 # 10)%Q];
     Patients.cb_requiredUnits := None;
     Patients.cb_description := None;
     Patients.cb_medicalNotes := None |}.

Definition sample_donor : User :=
  {| name := "Dee"; email := "dee@example.org"; password := Some "hash";
     phone := "100"; userType := "donor"; u_bloodType := Some "O-";
     location := Some ((774 # 10)%Q, (13 # 1)%Q);
     isVerified := true; lastDonationDate := None; isAvailable := true;
     medicalHistory := Some [] |}.

Definition no_requests : Store :=
  {| requests := ∅; users := {[ "d1" := sample_donor ]}; notifications := [] |}.

(** One request of patient [p1] under id [r1], still active. *)
Definition st_active : Store :=
  (Patients.createRequest "r1" (Some "p1") sample_body no_requests).2.

(** ... after donor [d1] accepted. *)
Definition st_matched : Store :=
  (Requests.respond 1000 1001 true (Some "d1") (ObjectIdText "r1") "accepted" None st_active).2.

(** ... after donor [d1] then declined. *)
Definition st_declined : Store :=
  (Requests.respond 2000 2001 true (Some "d1") (ObjectIdText "r1") "declined" None st_matched).2.

(** ... and the matched request completed by the patient. *)
Definition st_completed : Store :=
  (Requests.complete 3000 3001 (Some "p1") (ObjectIdText "r1") st_matched).2.

(** ... or cancelled by the patient. *)
Definition st_cancelled : Store :=
  (Patients.cancel 2500 (Some "p1") (ObjectIdText "r1") (Some "no longer needed") st_matched).2.

(** The document under [r1] in the sample stores. *)
Definition r1_active : BloodRequest := Patients.new_request "p1" sample_body.
Definition r1_matched : BloodRequest :=
  Requests.responded "d1" "accepted" 1000 1001 None r1_active.
Definition r1_declined : BloodRequest :=
  Requests.responded "d1" "declined" 2000 2001 None r1_matched.

(** ** The candidate set of donor search as the specification words it *)




(** The record the search returns for a donor document. *)
Definition search_hit {E : External} (lat lng : Q) (d : Id * User) : Obj :=
  Donors.with_distance lat lng (d.1, Donors.select_public d.2).


(** A stand-in for the outside world of the search: two coordinates it
    can parse, a store that accepts every query and measures 5 km to
    every donor, as does [geolib]. *)
Definition sample_external : External :=
  {| parseFloat := λ s, if bool_decide (s = "13") then JNum 13
                        else if bool_decide (s = "77.4") then JNum (774 # 10)
                        else JNaN;
     toNumber := λ s, JNaN;
     near_accepts := λ _ _ _, true;
     near_distance := λ _ _, 5000%Q;
     getDistance := λ _ _, 5000;
     cast_in_operand := λ _, None |}.

Definition sample_query : Donors.Query :=
  {| Donors.q_bloodType := Some "AB-"; Donors.q_lat := Some "13";
     Donors.q_lng := Some "77.4"; Donors.q_radius := None |}.







(** A stand-in for the outside world whose number conversion knows the
    radius [10]. *)
Definition sample_external_10 : External :=
  {| parseFloat := parseFloat (External := sample_external);
     toNumber := λ s, if bool_decide (s = "10") then JNum 10 else JNaN;
     near_accepts := λ _ _ _, true;
     near_distance := λ _ _, 5000%Q;
     getDistance := λ _ _, 5000;
     cast_in_operand := λ _, None |}.

(** ** Views of the completion route used by the statements *)

(** The request document [POST /:id/complete] saves. *)
Definition completed (now : Date) (r : BloodRequest) : BloodRequest :=
  set_completedAt now (set_status "completed" r).

(** The first accepted entry, as [find] gives it. *)
Definition first_accepted (r : BloodRequest) : option MatchedDonor :=
  find (λ m, bool_decide (md_status m = "accepted")) (matchedDonors r).

(** The user collection after the route updated the donor. *)
Definition donated (now' : Date) (r : BloodRequest) (us : gmap Id User)
  : gmap Id User :=
  match first_accepted r with
  | Some m => alter (Requests.mark_donated now') (donor m) us
  | None => us
  end.

(** The acting user is the owning patient or an accepted donor. *)
Definition may_complete (userId : Id) (r : BloodRequest) : Prop :=
  patient r = userId
  ∨ Exists (λ m, donor m = userId ∧ md_status m = "accepted") (matchedDonors r).

#[global] Instance may_complete_dec userId r : Decision (may_complete userId r).
Proof. unfold may_complete. apply _. Defined.

(** The matched sample request after a second donor, [d2], accepted. *)
Definition st_two_accepted : Store :=
  (Requests.respond 1200 1201 true (Some "d2") (ObjectIdText "r1") "accepted" None st_matched).2.

Definition r1_two_accepted : BloodRequest :=
  Requests.responded "d2" "accepted" 1200 1201 None r1_matched.

(** A second request of patient [p1], of low urgency, beside [r1]. *)
Definition sample_body_low : Patients.CreateBody :=
  {| Patients.cb_bloodType := Some "A+";
     Patients.cb_urgency := Some "low";
     Patients.cb_hospital_name := Some "General";
     Patients.cb_coordinates := Some [(774 # 10)%Q; (129 # 10)%Q];
     Patients.cb_requiredUnits := None;
     Patients.cb_description := None;
     Patients.cb_medicalNotes := None |}.

Definition st_two_requests : Store :=
  (Patients.createRequest "r2" (Some "p1") sample_body_low st_active).2.

(** The unfiltered listing of these two requests. *)
Definition sample_listing : list (Id * BloodRequest) :=
  Listing.active (λ _, 0) (λ _, true) None None None None st_two_requests.

(** The record donor search returns for [d1], measured at 5000 metres. *)
Definition sample_hit : Obj :=
  Donors.with_distance (E := sample_external_10) 13 (774 # 10)
    ("d1", Donors.select_public sample_donor).

(** ** The compatibility table read as a relation *)

(** [donorType] is among the types [getCompatibleBloodTypes] lists for
    [recipient]. *)
Definition can_donate_to (donorType recipient : string) : bool :=
  match Donors.getCompatibleBloodTypes recipient with
  | JArr types => bool_decide (donorType ∈ types)
  | _ => false
  end.

Definition negative_types : list string := ["A-"; "B-"; "AB-"; "O-"].

(** ** How the lifecycle rewrites a stored request *)

(** The rewrites of one stored request an operation can make: none, a
    donor's answer on an active or matched request, the completion of a
    matched one, the cancellation of an active or matched one. *)
Inductive request_step (r : BloodRequest) : BloodRequest → Prop :=
| step_same : request_step r r
| step_responded donorId newStatus now now' notes :
    status r = "active" ∨ status r = "matched" →
    BloodRequest_validate
      (Requests.responded donorId newStatus now now' notes r) = true →
    request_step r (Requests.responded donorId newStatus now now' notes r)
| step_completed now :
    status r = "matched" → request_step r (completed now r)
| step_cancelled now reason :
    status r = "active" ∨ status r = "matched" →
    request_step r (Patients.cancelled now reason r).

(** The status changes of the state machine. *)
Definition transition (s s' : string) : Prop :=
  s' = s
  ∨ (s = "active" ∧ s' = "matched")
  ∨ ((s = "active" ∨ s = "matched") ∧ s' = "cancelled")
  ∨ (s = "matched" ∧ s' = "completed").

(** * Properties *)

(** Closed decidable goals, such as membership of a literal in a literal
    list, by evaluation. *)
Ltac by_compute :=
  match goal with
  | |- ?P => apply (@bool_decide_unpack P _); vm_compute; exact I
  end.

(** ** Lists *)

Lemma filter_fmap {A B} (f : A → B) (P : B → Prop) `{∀ y, Decision (P y)}
    (l : list A) :
  filter P (f <$> l) = f <$> filter (λ x, P (f x)) l.
Proof.
  induction l as [| x l IH]; [done |].
  rewrite fmap_cons, !filter_cons. case_decide; by rewrite IH.
Qed.

(** ** Compatibility table *)

Lemma compatibility_unknown (R : string) :
  R ∉ bloodType_enum → compatibility !! R = None.
Proof.
  intros HR. apply not_elem_of_list_to_map. exact HR.
Qed.


Lemma getCompatibleBloodTypes_AB_pos :
  Donors.getCompatibleBloodTypes "AB+" = JArr bloodType_enum.
Proof. reflexivity. Qed.


Lemma CompatibleDonorTypes_unknown (s : string) :
  s ∉ bloodType_enum → CompatibleDonorTypes s = [].
Proof.
  unfold bloodType_enum, CompatibleDonorTypes. intros Hs.
  repeat (rewrite bool_decide_eq_false_2;
          [| intros ->; apply Hs; by_compute]).
  done.
Qed.


(** C8. The lookup [compatibility[bloodType] || []] does not give the
    empty set on every unknown type: for the input [constructor], which is
    none of the eight blood types, the read finds the member every object
    literal inherits, and both helpers return it in place of an array. *)
Theorem getCompatibleBloodTypes_constructor :
  ("constructor" ∉ bloodType_enum)
  ∧ Donors.getCompatibleBloodTypes "constructor" = JInherited "constructor"
  ∧ BloodRequestModel.getCompatibleBloodTypes
      (Patients.new_request "p1"
         {| Patients.cb_bloodType := Some "constructor";
            Patients.cb_urgency := None; Patients.cb_hospital_name := None;
            Patients.cb_coordinates := None; Patients.cb_requiredUnits := None;
            Patients.cb_description := None; Patients.cb_medicalNotes := None |})
    = JInherited "constructor"
  ∧ Donors.getCompatibleBloodTypes "constructor" ≠ JArr [].
Proof.
  split; [| split; [| split]].
  - by_compute.
  - reflexivity.
  - reflexivity.
  - discriminate.
Qed.

(** ** Eligibility *)

Lemma days_at_least_56 (now last : Date) :
  Qle_bool 56 (daysSinceLastDonation now last) = true ↔ 56 * day ≤ now - last.
Proof.
  rewrite Qle_bool_iff. unfold daysSinceLastDonation, day.
  change (1000 * 60 * 60 * 24) with 86400000.
  unfold Qle, Qdiv, Qmult, Qinv, inject_Z. cbn [Qnum Qden].
  lia.
Qed.

Lemma isEligibleToDonate_iff (now : Date) (u : User) :
  isEligibleToDonate now u = true ↔
    userType u = "donor" ∧ isAvailable u = true ∧ isVerified u = true
    ∧ (lastDonationDate u = None
       ∨ ∃ last, lastDonationDate u = Some last ∧ 56 * day ≤ now - last).
Proof.
  unfold isEligibleToDonate.
  destruct (decide (userType u = "donor")) as [Ht | Ht].
  2:{ rewrite (bool_decide_eq_false_2 _ Ht). cbn. split; [done | tauto]. }
  rewrite (bool_decide_eq_true_2 _ Ht). cbn.
  destruct (isAvailable u); cbn; [| split; [done | intros (_ & ? & _); done]].
  destruct (isVerified u); cbn; [| split; [done | intros (_ & _ & ? & _); done]].
  destruct (lastDonationDate u) as [last |].
  - destruct (Qle_bool 56 (daysSinceLastDonation now last)) eqn:Hd; cbn.
    + apply days_at_least_56 in Hd. split; [| done].
      intros _. repeat split; try done. right. by exists last.
    + split; [done |]. intros (_ & _ & _ & [? | (l & [= <-] & Hl)]); [done |].
      apply days_at_least_56 in Hl. congruence.
  - split; [| done]. intros _. repeat split; try done. by left.
Qed.

(** C9. [isEligibleToDonate] holds exactly of an available, verified donor
    who never donated or whose last donation lies at least 56 days back
    at the time of the call; so it fails 30 days after a donation, holds
    60 days after one or without one, and fails for every unverified
    user. *)
Theorem isEligibleToDonate_spec (now : Date) (u : User) :
  (isEligibleToDonate now u = true ↔
     userType u = "donor" ∧ isAvailable u = true ∧ isVerified u = true
     ∧ (lastDonationDate u = None
        ∨ ∃ last, lastDonationDate u = Some last ∧ 56 * day ≤ now - last))
  ∧ (lastDonationDate u = Some (now - 30 * day) →
     isEligibleToDonate now u = false)
  ∧ (userType u = "donor" → isAvailable u = true → isVerified u = true →
     lastDonationDate u = Some (now - 60 * day) ∨ lastDonationDate u = None →
     isEligibleToDonate now u = true)
  ∧ (isVerified u = false → isEligibleToDonate now u = false).
Proof.
  pose proof (isEligibleToDonate_iff now u) as Hiff.
  split; [exact Hiff |]. split; [| split].
  - intros Hl. apply not_true_is_false. rewrite Hiff.
    intros (_ & _ & _ & [? | (l & Hl' & Hge)]); [congruence |].
    rewrite Hl in Hl'. injection Hl' as <-. unfold day in Hge. lia.
  - intros Ht Ha Hv [Hl | Hl]; apply Hiff; repeat split; try done.
    + right. eexists. split; [exact Hl |]. unfold day. lia.
    + by left.
  - intros Hv. apply not_true_is_false. rewrite Hiff.
    intros (_ & _ & ? & _). congruence.
Qed.

Lemma with_users_id (st : Store) : with_users (users st) st = st.
Proof. by destruct st. Qed.

Lemma with_requests_id (st : Store) : with_requests (requests st) st = st.
Proof. by destruct st. Qed.

(** ** Recording a donor's answer *)

Section record_response.
Import Requests.
Variables (donorId : Id) (newStatus : string) (now now' : Date)
          (notes : option string).

Lemma list_find_donor_None (l : list MatchedDonor) :
  list_find (λ m, donor m = donorId) l = None ↔ donorId ∉ donor <$> l.
Proof.
  rewrite list_find_None, Forall_forall, list_elem_of_fmap. split.
  - intros H (m & -> & Hm). by apply (H m).
  - intros H m Hm Hd. apply H. by exists m.
Qed.

(** After the call the first entry of the donor carries the answer. *)
Lemma record_response_find (l : list MatchedDonor) :
  ∃ i m,
    list_find (λ m, donor m = donorId)
      (record_response donorId newStatus now now' notes l) = Some (i, m)
    ∧ donor m = donorId ∧ md_status m = newStatus
    ∧ respondedAt m = Some now ∧ md_notes m = notes.
Proof.
  unfold record_response.
  destruct (list_find _ l) as [[i m] |] eqn:Hf.
  - apply list_find_Some in Hf as (Hi & Hd & Hbefore).
    exists i, (update_match newStatus now notes m).
    split; [| done].
    apply list_find_Some. split; [| split; [done |]].
    + apply list_lookup_insert_eq. by eapply lookup_lt_Some.
    + intros j y Hj Hlt. rewrite list_lookup_insert_ne in Hj by lia.
      by eapply Hbefore.
  - exists (length l + 0)%nat, (new_match donorId newStatus now now' notes).
    split; [| done].
    rewrite list_find_app_r by done. cbn.
    destruct (decide (donorId = donorId)); [| done]. cbn.
    do 2 f_equal. lia.
Qed.

(** Where the answer lands: on the first entry of the donor, which keeps
    its place and its [matchedAt], or on a new last entry. *)
Lemma record_response_first (l : list MatchedDonor) :
  ∃ i m,
    list_find (λ m, donor m = donorId)
      (record_response donorId newStatus now now' notes l) = Some (i, m)
    ∧ match list_find (λ m, donor m = donorId) l with
      | Some (j, m0) => i = j ∧ matchedAt m = matchedAt m0
      | None => i = length l ∧ matchedAt m = now'
      end.
Proof.
  unfold record_response.
  destruct (list_find _ l) as [[i m] |] eqn:Hf.
  - apply list_find_Some in Hf as (Hi & Hd & Hbefore).
    exists i, (update_match newStatus now notes m).
    split; [| done].
    apply list_find_Some. split; [| split; [done |]].
    + apply list_lookup_insert_eq. by eapply lookup_lt_Some.
    + intros j y Hj Hlt. rewrite list_lookup_insert_ne in Hj by lia.
      by eapply Hbefore.
  - exists (length l), (new_match donorId newStatus now now' notes).
    split; [| done].
    rewrite list_find_app_r by done. cbn.
    destruct (decide (donorId = donorId)); [| done]. cbn.
    repeat f_equal; lia.
Qed.

(** The donors of the list, in order: unchanged when the donor had an
    entry, extended by the donor otherwise. *)
Lemma record_response_donors (l : list MatchedDonor) :
  donor <$> record_response donorId newStatus now now' notes l
  = if decide (donorId ∈ donor <$> l) then donor <$> l
    else (donor <$> l) ++ [donorId].
Proof.
  unfold record_response.
  destruct (list_find _ l) as [[i m] |] eqn:Hf.
  - apply list_find_Some in Hf as (Hi & Hd & _).
    rewrite decide_True.
    2:{ apply list_elem_of_fmap. exists m. split; [done |].
        by eapply list_elem_of_lookup_2. }
    rewrite list_fmap_insert. apply list_insert_id.
    rewrite list_lookup_fmap, Hi. cbn. by rewrite Hd.
  - apply list_find_donor_None in Hf. rewrite decide_False by done.
    by rewrite fmap_app.
Qed.

Lemma record_response_NoDup (l : list MatchedDonor) :
  NoDup (donor <$> l) →
  NoDup (donor <$> record_response donorId newStatus now now' notes l).
Proof.
  intros Hl. rewrite record_response_donors. case_decide; [done |].
  apply NoDup_app. split; [done |]. split; [| apply NoDup_singleton].
  intros x Hx ->%list_elem_of_singleton. done.
Qed.

(** Every entry of the new list is an old one or carries the answer. *)
Lemma record_response_elem (l : list MatchedDonor) (m : MatchedDonor) :
  m ∈ record_response donorId newStatus now now' notes l →
  m ∈ l ∨ (donor m = donorId ∧ md_status m = newStatus).
Proof.
  unfold record_response.
  destruct (list_find _ l) as [[i m0] |] eqn:Hf.
  - apply list_find_Some in Hf as (Hi & Hd & _).
    intros (j & Hj)%list_elem_of_lookup.
    destruct (decide (i = j)) as [<- | Hne].
    + rewrite list_lookup_insert_eq in Hj by (by eapply lookup_lt_Some).
      injection Hj as <-. by right.
    + rewrite list_lookup_insert_ne in Hj by done.
      left. by eapply list_elem_of_lookup_2.
  - intros [H | ->%list_elem_of_singleton]%elem_of_app; [by left | by right].
Qed.

(** The entries of the other donors stay. *)
Lemma record_response_other (l : list MatchedDonor) (m : MatchedDonor) :
  m ∈ l → donor m ≠ donorId →
  m ∈ record_response donorId newStatus now now' notes l.
Proof.
  intros Hm Hne. unfold record_response.
  destruct (list_find _ l) as [[i m0] |] eqn:Hf.
  - apply list_find_Some in Hf as (Hi & Hd & _).
    apply list_elem_of_lookup in Hm as (j & Hj).
    apply list_elem_of_lookup. exists j.
    rewrite list_lookup_insert_ne; [done |].
    intros ->. congruence.
  - apply elem_of_app. by left.
Qed.

Lemma record_response_has_answer (l : list MatchedDonor) :
  ∃ m, m ∈ record_response donorId newStatus now now' notes l
       ∧ donor m = donorId ∧ md_status m = newStatus.
Proof.
  destruct (record_response_find l) as (i & m & Hf & Hd & Hs & _).
  apply list_find_Some in Hf as (Hi & _).
  exists m. split; [by eapply list_elem_of_lookup_2 | done].
Qed.

End record_response.

(** ** [POST /:id/respond] *)

Section respond.
Import Requests.

Lemma responded_status donorId newStatus now now' notes r :
  status (responded donorId newStatus now now' notes r)
  = if decide (newStatus = "accepted" ∧ status r = "active")
    then "matched" else status r.
Proof.
  unfold responded. cbn.
  destruct (decide (newStatus = "accepted")) as [Hs | Hs];
    destruct (decide (status r = "active")) as [Hr | Hr];
    rewrite ?(bool_decide_eq_true_2 _ Hs), ?(bool_decide_eq_false_2 _ Hs),
      ?(bool_decide_eq_true_2 _ Hr), ?(bool_decide_eq_false_2 _ Hr); cbn;
    first [rewrite decide_True by done | rewrite decide_False by tauto];
    done.
Qed.

Lemma responded_matchedDonors donorId newStatus now now' notes r :
  matchedDonors (responded donorId newStatus now now' notes r)
  = record_response donorId newStatus now now' notes (matchedDonors r).
Proof. unfold responded. by destruct (_ && _). Qed.

(** The answer touches the status and the matched donors only. *)
Lemma responded_frame donorId newStatus now now' notes r :
  let r' := responded donorId newStatus now now' notes r in
  patient r' = patient r ∧ bloodType r' = bloodType r
  ∧ urgency r' = urgency r ∧ hospital r' = hospital r
  ∧ requiredUnits r' = requiredUnits r ∧ description r' = description r
  ∧ medicalNotes r' = medicalNotes r ∧ completedAt r' = completedAt r
  ∧ cancelledAt r' = cancelledAt r
  ∧ cancellationReason r' = cancellationReason r.
Proof. unfold responded. by destruct (_ && _). Qed.

Lemma forallb_record_response (f : MatchedDonor → bool)
    donorId newStatus now now' notes l :
  forallb f l = true →
  (∀ m, donor m = donorId → md_status m = newStatus → f m = true) →
  forallb f (record_response donorId newStatus now now' notes l) = true.
Proof.
  rewrite !forallb_forall. intros Hl Hnew m Hm%list_elem_of_In.
  apply record_response_elem in Hm as [Hm | [Hd Hs]].
  - apply Hl. by apply list_elem_of_In.
  - by apply Hnew.
Qed.

(** A valid request stays valid under an answer the schema knows. *)
Lemma responded_validate donorId newStatus now now' notes r :
  BloodRequest_validate r = true → newStatus ∈ md_status_enum →
  BloodRequest_validate (responded donorId newStatus now now' notes r) = true.
Proof.
  intros Hv Hs. unfold BloodRequest_validate in *.
  destruct (responded_frame donorId newStatus now now' notes r)
    as (_ & -> & -> & -> & -> & -> & -> & _).
  rewrite responded_status, responded_matchedDonors.
  rewrite !andb_true_iff in *.
  destruct Hv as (((((((? & ?) & ?) & Hst) & Hmd) & ?) & ?) & ?).
  split_and!; try done.
  - destruct (decide (newStatus = "accepted" ∧ _)); [reflexivity | done].
  - apply forallb_record_response; [done |].
    intros m _ ->. by apply bool_decide_eq_true_2.
Qed.

(** The enum of the notification schema has no [donor_response]: the
    validators of [notification.save()] refuse the document. *)
Lemma donor_response_notification_rejected r requestId donorId newStatus :
  Notification_validate
    (donor_response_notification r requestId donorId newStatus) = false.
Proof.
  unfold Notification_validate. cbn.
  by rewrite andb_false_r.
Qed.

(** The outcomes of the route for an authenticated donor. *)
Lemma respond_cases now now' sinkOk (donorId : Id) (requestId : Id)
    newStatus notes st :
  donorId ≠ "" →
  respond now now' sinkOk (Some donorId) (ObjectIdText requestId) newStatus
    notes st
  = match requests st !! requestId with
    | None => (Json 404 "Request not found" None, st)
    | Some r =>
        if decide (status r = "active" ∨ status r = "matched") then
          let r' := responded donorId newStatus now now' notes r in
          let saved := with_requests (<[requestId := r']> (requests st)) st in
          if BloodRequest_validate r' then
            match Notification_save sinkOk
                    (donor_response_notification r' requestId donorId newStatus)
                    saved with
            | Some st2 =>
                (Json 200 ("Response " +:+ newStatus +:+ " successfully")
                      (Some r'), st2)
            | None => (server_error, saved)
            end
          else (server_error, st)
        else (Json 400 "Request is no longer active" None, st)
    end.
Proof.
  intros Hd. unfold respond. cbn.
  rewrite (bool_decide_eq_false_2 _ Hd). cbn.
  destruct (requests st !! requestId) as [r |]; [| done].
  destruct (decide (status r = "active")) as [Ha | Ha];
    destruct (decide (status r = "matched")) as [Hm | Hm];
    rewrite ?(bool_decide_eq_true_2 _ Ha), ?(bool_decide_eq_false_2 _ Ha),
      ?(bool_decide_eq_true_2 _ Hm), ?(bool_decide_eq_false_2 _ Hm); cbn;
    first [rewrite decide_True by tauto | rewrite decide_False by tauto];
    try done;
    by destruct (BloodRequest_validate _).
Qed.

(** A parameter that does not cast: [CastError], caught, 500. *)
Lemma respond_malformed now now' sinkOk (donorId : Id) text newStatus notes st :
  donorId ≠ "" →
  respond now now' sinkOk (Some donorId) (Malformed text) newStatus notes st
  = (server_error, st).
Proof.
  intros Hd. unfold respond. cbn. by rewrite (bool_decide_eq_false_2 _ Hd).
Qed.

(** Saving the notification leaves the requests and the users alone. *)
Lemma Notification_save_frame sinkOk n st st2 :
  Notification_save sinkOk n st = Some st2 →
  requests st2 = requests st ∧ users st2 = users st.
Proof.
  unfold Notification_save. destruct (_ && _); [| done]. by intros [= <-].
Qed.

(** The request collection after an answer that passed the checks. *)
Lemma respond_saved now now' sinkOk (donorId : Id) (requestId : Id)
    newStatus notes st r :
  donorId ≠ "" → requests st !! requestId = Some r →
  status r = "active" ∨ status r = "matched" →
  BloodRequest_validate (responded donorId newStatus now now' notes r) = true →
  requests (respond now now' sinkOk (Some donorId) (ObjectIdText requestId)
              newStatus notes st).2
  = <[requestId := responded donorId newStatus now now' notes r]> (requests st).
Proof.
  intros Hd Hr Hs Hv. rewrite respond_cases by done. rewrite Hr.
  rewrite decide_True by done. cbn zeta. rewrite Hv.
  destruct (Notification_save _ _ _) as [st2 |] eqn:Hn; [| done].
  cbn. by apply Notification_save_frame in Hn as [-> _].
Qed.

(** The route never answers 200: no notification it builds can be saved. *)
Lemma respond_never_200 now now' sinkOk user requestId newStatus notes st :
  http_status (respond now now' sinkOk user requestId newStatus notes st).1 ≠ 200.
Proof.
  destruct user as [donorId |]; [| done].
  destruct (decide (donorId = "")) as [-> | Hd]; [done |].
  destruct requestId as [requestId | text];
    [| by rewrite respond_malformed by done].
  rewrite respond_cases by done.
  destruct (requests st !! requestId) as [r |]; [| done].
  case_decide; [| done]. cbn zeta.
  destruct (BloodRequest_validate _); [| done].
  unfold Notification_save.
  by rewrite donor_response_notification_rejected.
Qed.

End respond.

(** ** [POST /:id/complete] *)

Section complete.
Import Requests.

Lemma may_complete_existsb userId r :
  negb (bool_decide (patient r = userId))
  && negb (existsb (λ m, bool_decide (donor m = userId)
                         && bool_decide (md_status m = "accepted"))
                   (matchedDonors r)) = false
  ↔ may_complete userId r.
Proof.
  unfold may_complete.
  rewrite andb_false_iff, !negb_false_iff, bool_decide_eq_true, existsb_exists.
  rewrite Exists_exists.
  apply or_iff_compat_l. split.
  - intros (m & Hm%list_elem_of_In & [Hd Hs]%andb_true_iff).
    exists m. by rewrite !bool_decide_eq_true in *.
  - intros (m & Hm%list_elem_of_In & Hd & Hs).
    exists m. split; [done |]. by rewrite andb_true_iff, !bool_decide_eq_true.
Qed.

Lemma completed_validate now r :
  BloodRequest_validate r = true → BloodRequest_validate (completed now r) = true.
Proof.
  unfold BloodRequest_validate. cbn. rewrite !andb_true_iff.
  intros (((((((? & ?) & ?) & _) & ?) & ?) & ?) & ?). by split_and!.
Qed.

(** The outcomes of the route for an authenticated user. *)
Lemma complete_cases now now' (userId : Id) (requestId : Id) st :
  userId ≠ "" →
  complete now now' (Some userId) (ObjectIdText requestId) st
  = match requests st !! requestId with
    | None => (Json 404 "Request not found" None, st)
    | Some r =>
        if decide (may_complete userId r) then
          if decide (status r = "matched") then
            if BloodRequest_validate (completed now r) then
              (Json 200 "Request completed successfully"
                    (Some (completed now r)),
               with_requests
                 (<[requestId := completed now r]> (requests st))
                 (with_users (donated now' r (users st)) st))
            else (server_error, with_users (donated now' r (users st)) st)
          else (Json 400 "Request is not in matched status" None, st)
        else (Json 403 "Not authorized to complete this request" None, st)
    end.
Proof.
  intros Hu. unfold complete. cbn.
  rewrite (bool_decide_eq_false_2 _ Hu). cbn.
  destruct (requests st !! requestId) as [r |]; [| done].
  destruct (decide (may_complete userId r)) as [Hm | Hm].
  - apply may_complete_existsb in Hm as ->.
    destruct (decide (status r = "matched")) as [Hs | Hs].
    + rewrite (bool_decide_eq_true_2 _ Hs). cbn.
      unfold donated, first_accepted, completed.
      destruct (find _ (matchedDonors r));
        destruct (BloodRequest_validate _); cbn; by rewrite ?with_users_id.
    + by rewrite (bool_decide_eq_false_2 _ Hs).
  - rewrite <- may_complete_existsb in Hm.
    apply not_false_is_true in Hm. by rewrite Hm.
Qed.

Lemma complete_malformed now now' (userId : Id) text st :
  userId ≠ "" →
  complete now now' (Some userId) (Malformed text) st = (server_error, st).
Proof.
  intros Hu. unfold complete. cbn. by rewrite (bool_decide_eq_false_2 _ Hu).
Qed.

End complete.

(** ** [PUT /requests/:id/cancel] and [POST /request] *)

Section patients.
Import Patients.

Lemma cancel_cases now (userId : Id) (requestId : Id) reason st :
  userId ≠ "" →
  cancel now (Some userId) (ObjectIdText requestId) reason st
  = match requests st !! requestId with
    | Some r =>
        if cancellable userId r
        then (Json 200 "Request cancelled successfully"
                   (Some (cancelled now reason r)),
              with_requests
                (<[requestId := cancelled now reason r]> (requests st)) st)
        else (Json 404 "Request not found or cannot be cancelled" None, st)
    | None => (Json 404 "Request not found or cannot be cancelled" None, st)
    end.
Proof.
  intros Hu. unfold cancel. cbn.
  by rewrite (bool_decide_eq_false_2 _ Hu).
Qed.

Lemma cancel_malformed now (userId : Id) text reason st :
  userId ≠ "" →
  cancel now (Some userId) (Malformed text) reason st = (server_error, st).
Proof.
  intros Hu. unfold cancel. cbn. by rewrite (bool_decide_eq_false_2 _ Hu).
Qed.

Lemma cancellable_spec userId r :
  cancellable userId r = true
  ↔ patient r = userId ∧ (status r = "active" ∨ status r = "matched").
Proof.
  unfold cancellable.
  rewrite andb_true_iff, !bool_decide_eq_true, !elem_of_cons, elem_of_nil.
  tauto.
Qed.

Lemma cancelled_validate now reason r :
  BloodRequest_validate r = true →
  BloodRequest_validate (cancelled now reason r) = true.
Proof.
  unfold BloodRequest_validate. cbn. rewrite !andb_true_iff.
  intros (((((((? & ?) & ?) & _) & ?) & ?) & ?) & ?). by split_and!.
Qed.

(** A request enters the collection active and without matched donor. *)
Lemma createRequest_effect newId user body st :
  (createRequest newId user body st).2 = st
  ∨ ∃ userId,
      user = Some userId ∧ requests st !! newId = None
      ∧ BloodRequest_validate (new_request userId body) = true
      ∧ (createRequest newId user body st).2
        = with_requests (<[newId := new_request userId body]> (requests st)) st.
Proof.
  unfold createRequest.
  destruct (validationResult body); [| by left].
  destruct user as [userId |]; [| by left].
  destruct (negb (truthy _)); [by left |].
  destruct (BloodRequest_validate _) eqn:Hv; [| by left]. cbn.
  destruct (geo_index_accepts _); [| by left]. cbn.
  destruct (requests st !! newId) eqn:Hl; [by left |].
  right. by exists userId.
Qed.

End patients.

(** ** What one operation does to the request collection *)

(** Either the collection is left as it was, or one document is written:
    a new active request, an answered one, a completed one or a cancelled
    one; the first three passed the validators of [save]. *)
Lemma run_effect (op : Op) (st : Store) :
  requests (run op st).2 = requests st
  ∨ ∃ id r',
      requests (run op st).2 = <[id := r']> (requests st)
      ∧ match op with
        | CreateRequest newId user body =>
            id = newId ∧ requests st !! id = None
            ∧ BloodRequest_validate r' = true
            ∧ ∃ userId, r' = Patients.new_request userId body
        | RecordDonorResponse now now' _ user requestId newStatus notes =>
            requestId = ObjectIdText id
            ∧ BloodRequest_validate r' = true
            ∧ ∃ donorId r,
                user = Some donorId ∧ requests st !! id = Some r
                ∧ (status r = "active" ∨ status r = "matched")
                ∧ r' = Requests.responded donorId newStatus now now' notes r
        | CompleteRequest now _ _ requestId =>
            requestId = ObjectIdText id
            ∧ BloodRequest_validate r' = true
            ∧ ∃ r, requests st !! id = Some r ∧ r' = completed now r
        | CancelRequest now user requestId reason =>
            requestId = ObjectIdText id
            ∧ ∃ r, requests st !! id = Some r
                   ∧ (status r = "active" ∨ status r = "matched")
                   ∧ r' = Patients.cancelled now reason r
        end.
Proof.
  destruct op as [newId user body | now now' sinkOk user requestId newStatus notes
                 | now now' user requestId | now user requestId reason];
    unfold run.
  - destruct (createRequest_effect newId user body st)
      as [-> | (userId & -> & Hn & Hv & ->)]; [by left |].
    right. exists newId, (Patients.new_request userId body). cbn. eauto 10.
  - destruct user as [donorId |]; [| by left].
    destruct (decide (donorId = "")) as [-> | Hd]; [by left |].
    destruct requestId as [requestId | text];
      [| by rewrite respond_malformed by done; left].
    destruct (requests st !! requestId) as [r |] eqn:Hr;
      [| by rewrite respond_cases, Hr by done; left].
    destruct (decide (status r = "active" ∨ status r = "matched")) as [Hs | Hs];
      [| by rewrite respond_cases, Hr, decide_False by done; left].
    destruct (BloodRequest_validate
                (Requests.responded donorId newStatus now now' notes r)) eqn:Hv;
      [| by rewrite respond_cases, Hr, decide_True by done; cbn zeta;
            rewrite Hv; left].
    right. exists requestId, (Requests.responded donorId newStatus now now' notes r).
    split; [by apply respond_saved |]. eauto 10.
  - destruct user as [userId |]; [| by left].
    destruct (decide (userId = "")) as [-> | Hu]; [by left |].
    destruct requestId as [requestId | text];
      [| by rewrite complete_malformed by done; left].
    rewrite (complete_cases now now' userId requestId st Hu).
    destruct (requests st !! requestId) as [r |] eqn:Hr; [| by left].
    destruct (decide (may_complete userId r)); [| by left].
    destruct (decide (status r = "matched")); [| by left].
    destruct (BloodRequest_validate _) eqn:Hv; [| by left].
    right. exists requestId, (completed now r). cbn. eauto 10.
  - destruct user as [userId |]; [| by left].
    destruct (decide (userId = "")) as [-> | Hu]; [by left |].
    destruct requestId as [requestId | text];
      [| by rewrite cancel_malformed by done; left].
    rewrite (cancel_cases now userId requestId reason st Hu).
    destruct (requests st !! requestId) as [r |] eqn:Hr; [| by left].
    destruct (Patients.cancellable userId r) eqn:Hc; [| by left].
    apply cancellable_spec in Hc as [_ Hs].
    right. exists requestId, (Patients.cancelled now reason r). cbn. eauto 10.
Qed.

(** ** Invariants of the lifecycle *)

(** A property of request documents that every write keeps holds of the
    whole collection after any operation. *)
Lemma run_preserves (P : BloodRequest → Prop) (op : Op) (st : Store) :
  (∀ userId body,
     BloodRequest_validate (Patients.new_request userId body) = true →
     P (Patients.new_request userId body)) →
  (∀ donorId newStatus now now' notes r,
     P r → BloodRequest_validate
             (Requests.responded donorId newStatus now now' notes r) = true →
     P (Requests.responded donorId newStatus now now' notes r)) →
  (∀ now r, P r → BloodRequest_validate (completed now r) = true →
            P (completed now r)) →
  (∀ now reason r, P r → P (Patients.cancelled now reason r)) →
  (∀ id r, requests st !! id = Some r → P r) →
  ∀ id r, requests (run op st).2 !! id = Some r → P r.
Proof.
  intros Hnew Hresp Hcompl Hcanc Hst id r.
  destruct (run_effect op st) as [-> | (id' & r' & -> & Hop)]; [by apply Hst |].
  rewrite lookup_insert. case_decide as Hid; [| by apply Hst].
  intros [= <-]. subst id'.
  destruct op; cbn in Hop.
  - destruct Hop as (_ & _ & Hv & userId & ->). by apply Hnew.
  - destruct Hop as (_ & Hv & donorId & r & _ & Hr & _ & ->).
    apply Hresp; [by eapply Hst | done].
  - destruct Hop as (_ & Hv & r & Hr & ->). apply Hcompl; [by eapply Hst | done].
  - destruct Hop as (_ & r & Hr & _ & ->). apply Hcanc. by eapply Hst.
Qed.

Lemma reachable_ind_requests (P : BloodRequest → Prop) :
  (∀ userId body,
     BloodRequest_validate (Patients.new_request userId body) = true →
     P (Patients.new_request userId body)) →
  (∀ donorId newStatus now now' notes r,
     P r → BloodRequest_validate
             (Requests.responded donorId newStatus now now' notes r) = true →
     P (Requests.responded donorId newStatus now now' notes r)) →
  (∀ now r, P r → BloodRequest_validate (completed now r) = true →
            P (completed now r)) →
  (∀ now reason r, P r → P (Patients.cancelled now reason r)) →
  ∀ st, reachable st → ∀ id r, requests st !! id = Some r → P r.
Proof.
  intros Hnew Hresp Hcompl Hcanc st Hst.
  induction Hst as [us | op st _ IH _].
  - intros id r. cbn. by rewrite lookup_empty.
  - by apply run_preserves.
Qed.

(** Every request of a reachable store passes the schema validators. *)
Lemma reachable_valid (st : Store) : reachable st → store_valid st.
Proof.
  unfold store_valid. revert st.
  apply (reachable_ind_requests (λ r, BloodRequest_validate r = true));
    try done.
  intros now reason r. apply cancelled_validate.
Qed.

(** Every request of a reachable store has one entry per donor. *)
Lemma reachable_one_entry_per_donor (st : Store) :
  reachable st →
  ∀ id r, requests st !! id = Some r → one_entry_per_donor r.
Proof.
  revert st.
  apply (reachable_ind_requests one_entry_per_donor); unfold one_entry_per_donor.
  - intros. cbn. apply NoDup_nil_2.
  - intros donorId newStatus now now' notes r Hr _.
    rewrite responded_matchedDonors. by apply record_response_NoDup.
  - done.
  - done.
Qed.

Lemma reachable_st_active : reachable st_active.
Proof.
  apply (reachable_step (CreateRequest "r1" (Some "p1") sample_body) no_requests);
    [apply reachable_init | exact I].
Qed.

Lemma reachable_st_matched : reachable st_matched.
Proof.
  apply (reachable_step
           (RecordDonorResponse 1000 1001 true (Some "d1") (ObjectIdText "r1") "accepted" None)
           st_active); [apply reachable_st_active | by left].
Qed.

Lemma reachable_st_declined : reachable st_declined.
Proof.
  apply (reachable_step
           (RecordDonorResponse 2000 2001 true (Some "d1") (ObjectIdText "r1") "declined" None)
           st_matched); [apply reachable_st_matched | by right].
Qed.

(** ** C1: a matched request and its accepted donors *)

(** C1 (as amended). Creating, completing and cancelling a request and an
    [accepted] answer keep the invariant that a matched request has an
    accepted donor; a [declined] answer keeps it when a donor other than
    the one answering is accepted on the request. *)
Theorem matched_has_accepted_preserved (op : Op) (st : Store) :
  matched_has_accepted st → lifecycle op → leaves_an_accepted op st →
  matched_has_accepted (run op st).2.
Proof.
  intros Hinv Hlife Hleave id r'.
  destruct (run_effect op st) as [-> | (id' & r'' & -> & Hop)]; [by apply Hinv |].
  rewrite lookup_insert. case_decide as Hid; [| by apply Hinv].
  intros [= <-] Hm. subst id'.
  destruct op as [newId user body | now now' sinkOk user requestId newStatus notes
                 | now now' user requestId | now user requestId reason];
    cbn in Hop, Hlife, Hleave.
  - by destruct Hop as (_ & _ & _ & userId & ->).
  - destruct Hop as (-> & _ & donorId & r & -> & Hr & Hs & ->).
    rewrite responded_status in Hm. unfold has_accepted.
    rewrite responded_matchedDonors.
    destruct Hlife as [-> | ->].
    + destruct (record_response_has_answer donorId "accepted" now now' notes
                  (matchedDonors r)) as (m & Hin & _ & Hacc).
      by exists m.
    + rewrite decide_False in Hm by (by intros [? _]).
      destruct (Hleave eq_refl r Hr Hm) as (m & Hin & Hne & Hacc).
      exists m. split; [| done]. by apply record_response_other.
  - by destruct Hop as (_ & _ & r & _ & ->).
  - by destruct Hop as (_ & r & _ & _ & ->).
Qed.

Lemma st_active_requests : requests st_active = {[ "r1" := r1_active ]}.
Proof. vm_compute. reflexivity. Qed.

Lemma st_matched_requests : requests st_matched = {[ "r1" := r1_matched ]}.
Proof. vm_compute. reflexivity. Qed.

Lemma st_declined_requests : requests st_declined = {[ "r1" := r1_declined ]}.
Proof. vm_compute. reflexivity. Qed.

Lemma st_active_invariant : matched_has_accepted st_active.
Proof.
  intros id r Hr Hs. rewrite st_active_requests in Hr.
  apply lookup_singleton_Some in Hr as [_ <-]. discriminate.
Qed.

Lemma st_matched_invariant : matched_has_accepted st_matched.
Proof.
  intros id r Hr Hs. rewrite st_matched_requests in Hr.
  apply lookup_singleton_Some in Hr as [_ <-].
  eexists. split; [apply list_elem_of_here | reflexivity].
Qed.

Lemma matched_has_accepted_preserved_witness :
  matched_has_accepted
    (run (RecordDonorResponse 1000 1001 true (Some "d1") (ObjectIdText "r1") "accepted" None)
         st_active).2.
Proof.
  apply matched_has_accepted_preserved.
  - apply st_active_invariant.
  - by left.
  - cbn. discriminate.
Defined.

(** C1 (as stated) fails: in the reachable store [st_matched] the
    invariant holds; the accepted donor [d1] then answers [declined], a
    lifecycle operation, and the reachable store [st_declined] it leaves
    has the request [r1] matched without any accepted donor. *)
Lemma matched_without_accepted_donor :
  reachable st_matched ∧ matched_has_accepted st_matched
  ∧ lifecycle (RecordDonorResponse 2000 2001 true (Some "d1") (ObjectIdText "r1") "declined" None)
  ∧ (run (RecordDonorResponse 2000 2001 true (Some "d1") (ObjectIdText "r1") "declined" None)
         st_matched).2 = st_declined
  ∧ reachable st_declined ∧ ¬ matched_has_accepted st_declined.
Proof.
  split_and!.
  - apply reachable_st_matched.
  - apply st_matched_invariant.
  - by right.
  - reflexivity.
  - apply reachable_st_declined.
  - intros H.
    destruct (H "r1" r1_declined) as (m & Hm & Hacc).
    + rewrite st_declined_requests. apply lookup_singleton_eq.
    + reflexivity.
    + apply list_elem_of_singleton in Hm. by subst m.
Qed.

(** ** C4: outcomes of a donor's answer *)

Lemma st_active_lookup : requests st_active !! "r1" = Some r1_active.
Proof. rewrite st_active_requests. apply lookup_singleton_eq. Qed.

Lemma st_matched_lookup : requests st_matched !! "r1" = Some r1_matched.
Proof. rewrite st_matched_requests. apply lookup_singleton_eq. Qed.

Lemma st_declined_lookup : requests st_declined !! "r1" = Some r1_declined.
Proof. rewrite st_declined_requests. apply lookup_singleton_eq. Qed.

(** C4. For an authenticated donor answering [accepted] or [declined]
    under a request id (a route parameter that casts to an ObjectId): an
    absent request gives 404 and a request neither active nor matched
    gives 400, the store untouched in both cases; on a (schema-valid)
    active request an [accepted] answer leaves the request matched; a
    [declined] answer, or any answer on a matched request, leaves the
    status as it was.  A route parameter that is no request id (it does
    not cast) is answered 500 before any lookup, the store untouched. *)
Theorem respond_status_transitions now now' sinkOk (donorId : Id)
    (requestId : Id) (newStatus : string) notes (st : Store) :
  donorId ≠ "" → newStatus = "accepted" ∨ newStatus = "declined" →
  let out := Requests.respond now now' sinkOk (Some donorId)
               (ObjectIdText requestId) newStatus notes st in
  (∀ text, Requests.respond now now' sinkOk (Some donorId) (Malformed text)
             newStatus notes st = (Json 500 "Server error" None, st))
  ∧ (requests st !! requestId = None →
     out = (Json 404 "Request not found" None, st))
  ∧ (∀ r, requests st !! requestId = Some r →
          status r ≠ "active" → status r ≠ "matched" →
          out = (Json 400 "Request is no longer active" None, st))
  ∧ (∀ r, requests st !! requestId = Some r →
          BloodRequest_validate r = true →
          status r = "active" → newStatus = "accepted" →
          ∃ r', requests out.2 !! requestId = Some r' ∧ status r' = "matched")
  ∧ (∀ r, requests st !! requestId = Some r →
          BloodRequest_validate r = true →
          status r = "active" ∨ status r = "matched" →
          newStatus = "declined" ∨ status r = "matched" →
          ∃ r', requests out.2 !! requestId = Some r' ∧ status r' = status r).
Proof.
  intros Hd Hs out. subst out.
  assert (Henum : newStatus ∈ md_status_enum)
    by (destruct Hs as [-> | ->]; by_compute).
  split_and!.
  - intros text. by apply respond_malformed.
  - intros Hr. by rewrite respond_cases, Hr by done.
  - intros r Hr Ha Hm. rewrite respond_cases, Hr by done.
    by rewrite decide_False by tauto.
  - intros r Hr Hv Ha ->.
    rewrite (respond_saved _ _ _ _ _ _ _ _ r) by (by auto using responded_validate).
    eexists. split; [apply lookup_insert_eq |].
    rewrite responded_status. by rewrite decide_True.
  - intros r Hr Hv Hst Hcase.
    rewrite (respond_saved _ _ _ _ _ _ _ _ r) by (by auto using responded_validate).
    eexists. split; [apply lookup_insert_eq |].
    rewrite responded_status. rewrite decide_False; [done |].
    intros [-> Ha]. destruct Hcase as [? | Hm]; [done | congruence].
Qed.

Lemma respond_status_transitions_witness :
  Requests.respond 1000 1001 true (Some "d1") (Malformed "abc") "accepted"
    None st_active = (Json 500 "Server error" None, st_active)
  ∧ ∃ r', requests (Requests.respond 1000 1001 true (Some "d1")
                      (ObjectIdText "r1") "accepted" None st_active).2
            !! "r1" = Some r'
          ∧ status r' = "matched".
Proof.
  destruct (respond_status_transitions 1000 1001 true "d1" "r1" "accepted"
              None st_active) as (Hbad & _ & _ & H & _).
  - discriminate.
  - by left.
  - split; [apply Hbad |]. apply (H r1_active).
    + apply st_active_lookup.
    + reflexivity.
    + reflexivity.
    + reflexivity.
Defined.

(** ** C5: answering twice *)

(** The number of entries of a donor, read on the donors of the list. *)
Lemma entries_of_donors (d : Id) (l : list MatchedDonor) :
  entries_of d l = length (filter (λ x, x = d) (donor <$> l)).
Proof. unfold entries_of. by rewrite filter_fmap, length_fmap. Qed.

Lemma entries_of_elem (d : Id) (l : list MatchedDonor) :
  d ∈ donor <$> l → (1 ≤ entries_of d l)%nat.
Proof.
  rewrite entries_of_donors. intros Hd.
  assert (Hin : d ∈ filter (λ x, x = d) (donor <$> l))
    by by apply list_elem_of_filter.
  destruct (filter _ _); [by apply elem_of_nil in Hin | cbn; lia].
Qed.

Lemma entries_of_not_elem (d : Id) (l : list MatchedDonor) :
  d ∉ donor <$> l → entries_of d l = 0%nat.
Proof.
  rewrite entries_of_donors. intros Hd.
  destruct (filter _ _) as [| x l'] eqn:Hf; [done |].
  assert (Hx : x ∈ filter (λ x, x = d) (donor <$> l))
    by (rewrite Hf; apply list_elem_of_here).
  apply list_elem_of_filter in Hx as [-> Hx]. done.
Qed.

(** Find-or-append never adds a second entry of the donor, and leaves the
    number of entries of every other donor as it was. *)
Lemma record_response_entries_of (donorId d : Id) newStatus now now' notes
    (l : list MatchedDonor) :
  entries_of d (Requests.record_response donorId newStatus now now' notes l)
  = if decide (d = donorId) then Nat.max 1 (entries_of d l) else entries_of d l.
Proof.
  rewrite (entries_of_donors d (Requests.record_response _ _ _ _ _ _)).
  rewrite record_response_donors.
  destruct (decide (donorId ∈ donor <$> l)) as [Hin | Hout].
  - rewrite <- entries_of_donors. case_decide as Hd; [| done]. subst d.
    apply entries_of_elem in Hin. lia.
  - rewrite filter_app, length_app, <- entries_of_donors.
    rewrite filter_cons, filter_nil. case_decide as Hd.
    + subst d. rewrite decide_True by done.
      rewrite (entries_of_not_elem _ _ Hout). reflexivity.
    + rewrite decide_False by done. cbn. lia.
Qed.

(** C5. A donor answers a stored request that is active or matched twice
    with the same status (one the schema lists; the request passing the
    schema validators).  Both answers are saved.  The second one rewrites
    the donor's entry where the first one left it, the first entry of
    the donor in the list: that entry keeps donor and [matchedAt] and
    takes the status, the time of the second answer as [respondedAt] and
    the notes of the second answer; every other position and the length
    of the list are as after the first call, and so is the status of the
    request.  (The first call had written that entry on the donor's
    first entry of before, or as a new last entry matched at the time of
    the call.)  No duplicate is appended: after the first call the donor
    has one entry if there was none and as many as before otherwise,
    every other donor has as many entries as before, and a list with at
    most one entry per donor stays one. *)
Theorem respond_twice_same_entry now1 now1' ok1 notes1 now2 now2' ok2 notes2
    (donorId requestId : Id) (newStatus : string) (st : Store)
    (r : BloodRequest) :
  donorId ≠ "" →
  requests st !! requestId = Some r →
  status r = "active" ∨ status r = "matched" →
  BloodRequest_validate r = true → newStatus ∈ md_status_enum →
  let st1 := (Requests.respond now1 now1' ok1 (Some donorId)
                (ObjectIdText requestId) newStatus notes1 st).2 in
  let st2 := (Requests.respond now2 now2' ok2 (Some donorId)
                (ObjectIdText requestId) newStatus notes2 st1).2 in
  ∃ r1 r2 i m1,
    requests st1 !! requestId = Some r1
    ∧ requests st2 !! requestId = Some r2
    ∧ length (matchedDonors r2) = length (matchedDonors r1)
    ∧ matchedDonors r1 !! i = Some m1
    ∧ donor m1 = donorId ∧ md_status m1 = newStatus
    ∧ respondedAt m1 = Some now1 ∧ md_notes m1 = notes1
    ∧ (∀ j m, matchedDonors r1 !! j = Some m → donor m = donorId → (i ≤ j)%nat)
    ∧ match list_find (λ m, donor m = donorId) (matchedDonors r) with
      | Some (j, m0) => i = j ∧ matchedAt m1 = matchedAt m0
      | None => i = length (matchedDonors r) ∧ matchedAt m1 = now1'
      end
    ∧ matchedDonors r2 !! i
      = Some {| donor := donorId; md_status := newStatus;
                matchedAt := matchedAt m1; respondedAt := Some now2;
                md_notes := notes2 |}
    ∧ (∀ j, j ≠ i → matchedDonors r2 !! j = matchedDonors r1 !! j)
    ∧ status r2 = status r1
    ∧ entries_of donorId (matchedDonors r1)
      = Nat.max 1 (entries_of donorId (matchedDonors r))
    ∧ (∀ d, d ≠ donorId →
            entries_of d (matchedDonors r1) = entries_of d (matchedDonors r))
    ∧ (∀ d, entries_of d (matchedDonors r2) = entries_of d (matchedDonors r1))
    ∧ (one_entry_per_donor r → one_entry_per_donor r1 ∧ one_entry_per_donor r2).
Proof.
  intros Hd Hr Hst Hv Henum st1 st2.
  set (r1 := Requests.responded donorId newStatus now1 now1' notes1 r).
  set (r2 := Requests.responded donorId newStatus now2 now2' notes2 r1).
  assert (Hv1 : BloodRequest_validate r1 = true) by by apply responded_validate.
  assert (Hst1 : status r1 = "active" ∨ status r1 = "matched").
  { unfold r1. rewrite responded_status. case_decide; [by right | done]. }
  assert (H1 : requests st1 !! requestId = Some r1).
  { unfold st1. rewrite (respond_saved _ _ _ _ _ _ _ _ r) by done.
    apply lookup_insert_eq. }
  assert (H2 : requests st2 !! requestId = Some r2).
  { unfold st2.
    rewrite (respond_saved _ _ _ _ _ _ _ _ r1)
      by (by auto using responded_validate).
    apply lookup_insert_eq. }
  destruct (record_response_find donorId newStatus now1 now1' notes1
              (matchedDonors r)) as (i & m1 & Hfind & Hm1).
  destruct (record_response_first donorId newStatus now1 now1' notes1
              (matchedDonors r)) as (i' & m1' & Hfind' & Hwhere).
  rewrite Hfind in Hfind'. injection Hfind' as <- <-.
  assert (Hmd1 : matchedDonors r1
                 = Requests.record_response donorId newStatus now1 now1' notes1
                     (matchedDonors r))
    by (unfold r1; by rewrite responded_matchedDonors).
  assert (Hmd : matchedDonors r2
                = <[i := Requests.update_match newStatus now2 notes2 m1]>
                    (matchedDonors r1)).
  { unfold r2. rewrite responded_matchedDonors. unfold Requests.record_response.
    rewrite Hmd1 at 1. by rewrite Hfind. }
  rewrite <- Hmd1 in Hfind.
  apply list_find_Some in Hfind as (Hi & _ & Hfirst).
  destruct Hm1 as (Hdm & Hsm & Hrm & Hnm).
  exists r1, r2, i, m1. split_and!; try done.
  - rewrite Hmd. apply length_insert.
  - intros j m Hj Hdj. destruct (decide (i ≤ j)%nat) as [| Hlt]; [done |].
    exfalso. apply (Hfirst j m Hj); [lia | done].
  - rewrite Hmd, list_lookup_insert_eq by (by eapply lookup_lt_Some).
    unfold Requests.update_match. by rewrite Hdm.
  - intros j Hj. rewrite Hmd. by apply list_lookup_insert_ne.
  - unfold r2. rewrite responded_status. case_decide as Hc; [| done].
    destruct Hc as [-> Ha]. unfold r1 in Ha |- *.
    rewrite responded_status in Ha |- *.
    case_decide as Hc'; [done |]. exfalso. apply Hc'. by split.
  - rewrite Hmd1, record_response_entries_of. by rewrite decide_True.
  - intros d Hne. rewrite Hmd1, record_response_entries_of.
    by rewrite decide_False.
  - intros d. unfold r2. rewrite responded_matchedDonors.
    rewrite record_response_entries_of. case_decide as Hc; [| done]. subst d.
    rewrite Hmd1, record_response_entries_of, decide_True by done. lia.
  - intros Hone. unfold one_entry_per_donor in *.
    assert (Hone1 : NoDup (donor <$> matchedDonors r1))
      by (rewrite Hmd1; by apply record_response_NoDup).
    split; [done |]. unfold r2. rewrite responded_matchedDonors.
    by apply record_response_NoDup.
Qed.

Lemma respond_twice_same_entry_witness :
  ∃ r1 r2 i m1,
    requests (Requests.respond 1200 1201 true (Some "d2") (ObjectIdText "r1")
                "declined" None st_matched).2 !! "r1" = Some r1
    ∧ requests (Requests.respond 1500 1501 true (Some "d2") (ObjectIdText "r1")
                  "declined" (Some "abroad")
                  (Requests.respond 1200 1201 true (Some "d2")
                     (ObjectIdText "r1") "declined" None st_matched).2).2
        !! "r1" = Some r2
    ∧ length (matchedDonors r2) = length (matchedDonors r1)
    ∧ matchedDonors r1 !! i = Some m1
    ∧ matchedDonors r2 !! i
      = Some {| donor := "d2"; md_status := "declined";
                matchedAt := matchedAt m1; respondedAt := Some 1500;
                md_notes := Some "abroad" |}
    ∧ entries_of "d2" (matchedDonors r1)
      = Nat.max 1 (entries_of "d2" (matchedDonors r1_matched))
    ∧ entries_of "d1" (matchedDonors r2) = entries_of "d1" (matchedDonors r1).
Proof.
  destruct (respond_twice_same_entry 1200 1201 true None 1500 1501 true
              (Some "abroad") "d2" "r1" "declined" st_matched r1_matched)
    as (r1 & r2 & i & m1 & H1 & H2 & Hlen & Hi & _ & _ & _ & _ & _ & _ & Hi2
        & _ & _ & Hc & _ & Hc2 & _).
  - discriminate.
  - apply st_matched_lookup.
  - by right.
  - reflexivity.
  - by_compute.
  - exists r1, r2, i, m1. split_and!; try done.
Defined.

(** ** C3: a notification that cannot be saved *)

(** Outside [POST /:id/respond] no route writes a notification. *)
Lemma notifications_unchanged (op : Op) (st : Store) :
  match op with
  | RecordDonorResponse _ _ _ _ _ _ _ => True
  | _ => notifications (run op st).2 = notifications st
  end.
Proof.
  destruct op as [newId user body | | now now' user requestId
                 | now user requestId reason]; [| done | |]; unfold run.
  - by destruct (createRequest_effect newId user body st)
      as [-> | (userId & _ & _ & _ & ->)].
  - destruct user as [userId |]; [| done].
    destruct (decide (userId = "")) as [-> | Hu]; [done |].
    destruct requestId as [requestId | text];
      [| by rewrite complete_malformed by done].
    rewrite (complete_cases now now' userId requestId st Hu).
    repeat case_match; done.
  - destruct user as [userId |]; [| done].
    destruct (decide (userId = "")) as [-> | Hu]; [done |].
    destruct requestId as [requestId | text];
      [| by rewrite cancel_malformed by done].
    rewrite (cancel_cases now userId requestId reason st Hu).
    repeat case_match; done.
Qed.

(** C3 (as amended). When the answer of an authenticated donor has been
    saved on the request and the notification then cannot be saved, the
    route answers 500 [Server error]; the request stays saved as answered
    and nothing else of the store changes. *)
Theorem respond_notification_failure now now' sinkOk (donorId requestId : Id)
    (newStatus : string) notes (st : Store) (r : BloodRequest) :
  donorId ≠ "" →
  requests st !! requestId = Some r →
  status r = "active" ∨ status r = "matched" →
  let r' := Requests.responded donorId newStatus now now' notes r in
  let saved := with_requests (<[requestId := r']> (requests st)) st in
  BloodRequest_validate r' = true →
  Notification_save sinkOk
    (Requests.donor_response_notification r' requestId donorId newStatus)
    saved = None →
  Requests.respond now now' sinkOk (Some donorId) (ObjectIdText requestId)
    newStatus notes st
  = (server_error, saved)
  ∧ requests saved !! requestId = Some r'
  ∧ users saved = users st
  ∧ notifications saved = notifications st.
Proof.
  intros Hd Hr Hs r' saved Hv Hfail.
  rewrite respond_cases by done. rewrite Hr.
  rewrite decide_True by done. cbn zeta. fold r'. rewrite Hv. fold saved.
  rewrite Hfail.
  split_and!; try done. apply lookup_insert_eq.
Qed.

Lemma respond_notification_failure_witness :
  Requests.respond 1000 1001 false (Some "d1") (ObjectIdText "r1") "accepted" None st_active
  = (server_error,
     with_requests (<["r1" := r1_matched]> (requests st_active)) st_active)
  ∧ requests (with_requests (<["r1" := r1_matched]> (requests st_active))
                st_active) !! "r1" = Some r1_matched
  ∧ users (with_requests (<["r1" := r1_matched]> (requests st_active)) st_active)
    = users st_active
  ∧ notifications
      (with_requests (<["r1" := r1_matched]> (requests st_active)) st_active)
    = notifications st_active.
Proof.
  apply (respond_notification_failure 1000 1001 false "d1" "r1" "accepted"
           None st_active r1_active).
  - discriminate.
  - apply st_active_lookup.
  - by left.
  - reflexivity.
  - reflexivity.
Defined.

(** C3 (as stated) fails: donor [d1] accepts the active request [r1] and
    the notification store refuses the write.  The answer is saved, the
    request is matched, and the route reports 500, not success. *)
Lemma respond_reports_failure :
  let out := Requests.respond 1000 1001 false (Some "d1") (ObjectIdText "r1") "accepted" None
               st_active in
  requests out.2 !! "r1" = Some r1_matched
  ∧ status r1_matched = "matched"
  ∧ out.1 = Json 500 "Server error" None
  ∧ http_status out.1 ≠ 200.
Proof.
  cbn zeta. split_and!.
  - vm_compute. reflexivity.
  - reflexivity.
  - vm_compute. reflexivity.
  - vm_compute. discriminate.
Qed.


(** ** C2 and C10: completing a request *)

Lemma first_accepted_None (r : BloodRequest) :
  first_accepted r = None ↔ ¬ has_accepted r.
Proof.
  unfold first_accepted, has_accepted. split.
  - intros Hf (m & Hm%list_elem_of_In & Hs).
    apply (find_none _ _ Hf) in Hm. by rewrite bool_decide_eq_false in Hm.
  - intros Hn. destruct (find _ _) as [m |] eqn:Hf; [| done].
    apply find_some in Hf as [Hm%list_elem_of_In Hs%bool_decide_eq_true].
    destruct Hn. by exists m.
Qed.

(** [find] gives the first accepted entry of the list. *)
Lemma first_accepted_Some (r : BloodRequest) (m : MatchedDonor) :
  first_accepted r = Some m →
  ∃ l1 l2, matchedDonors r = l1 ++ m :: l2 ∧ md_status m = "accepted"
           ∧ Forall (λ x, md_status x ≠ "accepted") l1.
Proof.
  unfold first_accepted. induction (matchedDonors r) as [| x l IH]; [done |].
  cbn. destruct (decide (md_status x = "accepted")) as [Hx | Hx].
  - rewrite (bool_decide_eq_true_2 _ Hx). intros [= <-].
    by exists [], l.
  - rewrite (bool_decide_eq_false_2 _ Hx). intros Hf.
    destruct (IH Hf) as (l1 & l2 & -> & Hm & Hl1).
    exists (x :: l1), l2. split_and!; [done | done |]. by constructor.
Qed.

(** C2 (as amended). For an authenticated user the route answers 500,
    the store untouched, when the route parameter is no request id (it
    does not cast to an ObjectId); for a request id it answers, in this
    order, 404 when the request does not exist, 403 when the user is
    neither the owning patient nor a donor with an accepted entry, 400
    when the status is not matched.  Otherwise, on a schema-valid request,
    it answers 200 and saves the request completed, with [completedAt]
    set; if the list of matched donors has an accepted entry, the user
    record of the donor of the first one gets [lastDonationDate] set and
    [isAvailable] false, and no other user record changes; if it has
    none, no user record changes. *)
Theorem complete_spec now now' (userId requestId : Id) (st : Store) :
  userId ≠ "" →
  let out := Requests.complete now now' (Some userId) (ObjectIdText requestId)
               st in
  (∀ text, Requests.complete now now' (Some userId) (Malformed text) st
           = (Json 500 "Server error" None, st))
  ∧ (requests st !! requestId = None →
     out = (Json 404 "Request not found" None, st))
  ∧ (∀ r, requests st !! requestId = Some r → ¬ may_complete userId r →
          out = (Json 403 "Not authorized to complete this request" None, st))
  ∧ (∀ r, requests st !! requestId = Some r → may_complete userId r →
          status r ≠ "matched" →
          out = (Json 400 "Request is not in matched status" None, st))
  ∧ (∀ r, requests st !! requestId = Some r → may_complete userId r →
          status r = "matched" → BloodRequest_validate r = true →
          ∃ r',
            out.1 = Json 200 "Request completed successfully" (Some r')
            ∧ requests out.2 = <[requestId := r']> (requests st)
            ∧ status r' = "completed" ∧ completedAt r' = Some now
            ∧ (∀ m, first_accepted r = Some m →
                 (∃ l1 l2, matchedDonors r = l1 ++ m :: l2
                           ∧ md_status m = "accepted"
                           ∧ Forall (λ x, md_status x ≠ "accepted") l1)
                 ∧ (∀ u, users st !! donor m = Some u →
                      ∃ u', users out.2 !! donor m = Some u'
                            ∧ lastDonationDate u' = Some now'
                            ∧ isAvailable u' = false)
                 ∧ (∀ id, id ≠ donor m → users out.2 !! id = users st !! id))
            ∧ (first_accepted r = None → users out.2 = users st)).
Proof.
  intros Hu out. subst out. rewrite complete_cases by done.
  split_and!.
  - intros text. by apply complete_malformed.
  - by intros ->.
  - intros r -> Hm. by rewrite decide_False.
  - intros r -> Hm Hs. by rewrite decide_True, decide_False.
  - intros r -> Hm Hs Hv. rewrite !decide_True by done.
    rewrite completed_validate by done. cbn.
    exists (completed now r). split_and!; try done.
    + intros m Hf. split_and!.
      * by apply first_accepted_Some.
      * intros u Hl. unfold donated. rewrite Hf.
        exists (Requests.mark_donated now' u).
        split; [| done]. rewrite lookup_alter. rewrite decide_True by done.
        by rewrite Hl.
      * intros id Hne. unfold donated. rewrite Hf.
        rewrite lookup_alter. by rewrite decide_False.
    + intros Hf. unfold donated. by rewrite Hf.
Qed.

Lemma st_matched_first_accepted :
  ∃ m, first_accepted r1_matched = Some m ∧ donor m = "d1".
Proof. eexists. split; reflexivity. Qed.

Lemma complete_spec_witness :
  Requests.complete 3000 3001 (Some "d1") (Malformed "abc") st_matched
  = (Json 500 "Server error" None, st_matched)
  ∧ ∃ r', (Requests.complete 3000 3001 (Some "d1") (ObjectIdText "r1")
             st_matched).1
          = Json 200 "Request completed successfully" (Some r')
          ∧ status r' = "completed" ∧ completedAt r' = Some 3000.
Proof.
  destruct (complete_spec 3000 3001 "d1" "r1" st_matched)
    as (Hbad & _ & _ & _ & H).
  - discriminate.
  - split; [apply Hbad |].
    destruct (H r1_matched) as (r' & Hout & _ & Hs & Hc & _).
    + apply st_matched_lookup.
    + right. apply Exists_cons_hd. by split.
    + reflexivity.
    + reflexivity.
    + by exists r'.
Defined.

(** C2 (as stated) fails: on [st_declined] the request [r1] is matched and
    its only entry is declined; the owning patient completes it.  The
    route answers 200 and saves the request completed, yet the request has
    no accepted donor that could be the completing one, and no user
    record is touched. *)
Lemma complete_marks_no_donor :
  let out := Requests.complete 3000 3001 (Some "p1") (ObjectIdText "r1") st_declined in
  http_status out.1 = 200
  ∧ (∃ r', requests out.2 !! "r1" = Some r' ∧ status r' = "completed"
           ∧ completedAt r' = Some 3000
           ∧ ¬ ∃ m, m ∈ matchedDonors r' ∧ md_status m = "accepted")
  ∧ users out.2 = users st_declined.
Proof.
  cbn zeta. split_and!.
  - vm_compute. reflexivity.
  - exists (completed 3000 r1_declined). split_and!.
    + vm_compute. reflexivity.
    + reflexivity.
    + reflexivity.
    + intros (m & Hm & Hs). apply list_elem_of_singleton in Hm. by subst m.
  - vm_compute. reflexivity.
Qed.

(** C10. A matched request without accepted entry, completed by its
    owning patient: the route answers 200, the request is saved completed
    with [completedAt] set, and the user collection is left as it was. *)
Theorem complete_without_accepted_donor now now' (userId requestId : Id)
    (st : Store) (r : BloodRequest) :
  userId ≠ "" →
  requests st !! requestId = Some r →
  BloodRequest_validate r = true →
  patient r = userId → status r = "matched" → ¬ has_accepted r →
  let out := Requests.complete now now' (Some userId) (ObjectIdText requestId)
               st in
  ∃ r',
    out.1 = Json 200 "Request completed successfully" (Some r')
    ∧ requests out.2 = <[requestId := r']> (requests st)
    ∧ status r' = "completed" ∧ completedAt r' = Some now
    ∧ users out.2 = users st.
Proof.
  intros Hu Hr Hv Hp Hs Hn out. subst out.
  rewrite complete_cases by done. rewrite Hr.
  rewrite decide_True by (by left). rewrite decide_True by done.
  rewrite completed_validate by done. cbn.
  exists (completed now r). split_and!; try done.
  unfold donated. by apply first_accepted_None in Hn as ->.
Qed.

Lemma complete_without_accepted_donor_witness :
  ∃ r',
    (Requests.complete 3000 3001 (Some "p1") (ObjectIdText "r1") st_declined).1
    = Json 200 "Request completed successfully" (Some r')
    ∧ requests (Requests.complete 3000 3001 (Some "p1") (ObjectIdText "r1") st_declined).2
      = <["r1" := r']> (requests st_declined)
    ∧ status r' = "completed" ∧ completedAt r' = Some 3000
    ∧ users (Requests.complete 3000 3001 (Some "p1") (ObjectIdText "r1") st_declined).2
      = users st_declined.
Proof.
  apply (complete_without_accepted_donor 3000 3001 "p1" "r1" st_declined
           r1_declined).
  - discriminate.
  - apply st_declined_lookup.
  - reflexivity.
  - reflexivity.
  - reflexivity.
  - intros (m & Hm & Hs). apply list_elem_of_singleton in Hm. by subst m.
Defined.

(** ** C7: cancelling a request *)

(** C7 (as amended). For an authenticated patient and a request id (a
    route parameter that casts to an ObjectId) the route answers the one
    response 404 [Request not found or cannot be cancelled], the store
    untouched, when the request is absent, when it belongs to another
    patient and when its status is neither active nor matched.  Otherwise
    it answers 200 and saves the request cancelled, with [cancelledAt]
    set and the reason given recorded; nothing else changes.  A route
    parameter that is no request id is answered 500, the store
    untouched. *)
Theorem cancel_spec now (userId requestId : Id) reason (st : Store) :
  userId ≠ "" →
  let out := Patients.cancel now (Some userId) (ObjectIdText requestId) reason
               st in
  let refused :=
    (Json 404 "Request not found or cannot be cancelled" None, st) in
  (∀ text, Patients.cancel now (Some userId) (Malformed text) reason st
           = (Json 500 "Server error" None, st))
  ∧ (requests st !! requestId = None → out = refused)
  ∧ (∀ r, requests st !! requestId = Some r → patient r ≠ userId →
          out = refused)
  ∧ (∀ r, requests st !! requestId = Some r →
          status r ≠ "active" → status r ≠ "matched" → out = refused)
  ∧ (∀ r, requests st !! requestId = Some r → patient r = userId →
          status r = "active" ∨ status r = "matched" →
          ∃ r', out = (Json 200 "Request cancelled successfully" (Some r'),
                       with_requests (<[requestId := r']> (requests st)) st)
                ∧ status r' = "cancelled" ∧ cancelledAt r' = Some now
                ∧ (∀ text, reason = Some text →
                           cancellationReason r' = Some text)
                ∧ patient r' = patient r
                ∧ matchedDonors r' = matchedDonors r
                ∧ completedAt r' = completedAt r).
Proof.
  intros Hu out refused. subst out refused. rewrite cancel_cases by done.
  split_and!.
  - intros text. by apply cancel_malformed.
  - by intros ->.
  - intros r -> Hp.
    destruct (Patients.cancellable userId r) eqn:Hc; [| done].
    by apply cancellable_spec in Hc as [? _].
  - intros r -> Ha Hm.
    destruct (Patients.cancellable userId r) eqn:Hc; [| done].
    apply cancellable_spec in Hc as [_ [? | ?]]; done.
  - intros r -> Hp Hs.
    rewrite (proj2 (cancellable_spec userId r)) by done.
    exists (Patients.cancelled now reason r). split_and!; try done.
    by intros text ->.
Qed.

Lemma cancel_spec_witness :
  Patients.cancel 2500 (Some "p1") (Malformed "abc") (Some "no longer needed")
    st_matched = (Json 500 "Server error" None, st_matched)
  ∧ ∃ r', Patients.cancel 2500 (Some "p1") (ObjectIdText "r1")
            (Some "no longer needed") st_matched
          = (Json 200 "Request cancelled successfully" (Some r'),
             with_requests (<["r1" := r']> (requests st_matched)) st_matched)
          ∧ status r' = "cancelled" ∧ cancelledAt r' = Some 2500
          ∧ cancellationReason r' = Some "no longer needed".
Proof.
  destruct (cancel_spec 2500 "p1" "r1" (Some "no longer needed") st_matched)
    as (Hbad & _ & _ & _ & H).
  - discriminate.
  - split; [apply Hbad |].
    destruct (H r1_matched) as (r' & Hout & Hs & Hc & Hreason & _).
    + apply st_matched_lookup.
    + reflexivity.
    + by right.
    + exists r'. split_and!; [done | done | done |]. by apply Hreason.
Defined.

(** C7 (as stated) fails: cancelling the completed request [r1] as its
    owner, cancelling it as another patient and cancelling a request that
    does not exist get the very same response, status 404 with the same
    message; no 400 tells the illegal state apart. *)
Lemma cancel_invalid_state_is_not_found :
  let completed_own := Patients.cancel 4000 (Some "p1") (ObjectIdText "r1") None st_completed in
  let foreign := Patients.cancel 4000 (Some "p2") (ObjectIdText "r1") None st_matched in
  let absent := Patients.cancel 4000 (Some "p1") (ObjectIdText "r1") None no_requests in
  (∃ r, requests st_completed !! "r1" = Some r ∧ status r = "completed"
        ∧ patient r = "p1")
  ∧ requests no_requests !! "r1" = None
  ∧ completed_own.1 = absent.1
  ∧ completed_own.1 = foreign.1
  ∧ completed_own.1 = Json 404 "Request not found or cannot be cancelled" None
  ∧ http_status completed_own.1 ≠ 400.
Proof.
  cbn zeta. split_and!.
  - exists (completed 3000 r1_matched). split_and!.
    + vm_compute. reflexivity.
    + reflexivity.
    + reflexivity.
  - reflexivity.
  - vm_compute. reflexivity.
  - vm_compute. reflexivity.
  - vm_compute. reflexivity.
  - vm_compute. discriminate.
Qed.

(** The answer of a donor to a cancelled request is refused with 400. *)
Lemma respond_on_cancelled :
  (∃ r, requests st_cancelled !! "r1" = Some r ∧ status r = "cancelled")
  ∧ Requests.respond 5000 5001 true (Some "d1") (ObjectIdText "r1") "accepted" None st_cancelled
    = (Json 400 "Request is no longer active" None, st_cancelled).
Proof.
  split.
  - eexists. split; [vm_compute; reflexivity | reflexivity].
  - vm_compute. reflexivity.
Qed.


(** ** C6: donor search *)

Section sort_by.
Context {A : Type} (key : A → Q).

Lemma insert_by_perm (x : A) (l : list A) : insert_by key x l ≡ₚ x :: l.
Proof.
  induction l as [| y l IH]; cbn; [done |].
  destruct (Qle_bool (key x) (key y)); [done |].
  rewrite IH. apply Permutation_swap.
Qed.

Lemma sort_by_perm (l : list A) : sort_by key l ≡ₚ l.
Proof.
  induction l as [| x l IH]; cbn; [done |].
  by rewrite insert_by_perm, IH.
Qed.



End sort_by.

Lemma obj_get_set_eq (key : string) (v : Value) (o : Obj) :
  obj_get key (obj_set key v o) = Some v.
Proof.
  unfold obj_get. induction o as [| [k w] o IH]; cbn.
  - by rewrite bool_decide_eq_true_2.
  - destruct (decide (k = key)) as [-> | Hk].
    + rewrite bool_decide_eq_true_2 by done. cbn.
      by rewrite bool_decide_eq_true_2.
    + rewrite bool_decide_eq_false_2 by done. cbn.
      by rewrite bool_decide_eq_false_2.
Qed.

Lemma obj_get_set_ne (key k' : string) (v : Value) (o : Obj) :
  k' ≠ key → obj_get k' (obj_set key v o) = obj_get k' o.
Proof.
  intros Hne. unfold obj_get. induction o as [| [k w] o IH]; cbn.
  - by rewrite bool_decide_eq_false_2.
  - destruct (decide (k = key)) as [-> | Hk].
    + rewrite bool_decide_eq_true_2 by done. cbn.
      by rewrite bool_decide_eq_false_2.
    + rewrite bool_decide_eq_false_2 by done. cbn.
      destruct (bool_decide (k = k')); [done | exact IH].
Qed.


Section search.
Import Donors.
Context {E : External}.




(** The distance a record reports: [geolib]'s metres as kilometres with
    one decimal. *)
Lemma search_hit_distance lat lng (d : Id * User) :
  distance_of (search_hit lat lng d)
  = to_km match location d.2 with
          | Some (dlng, dlat) => getDistance (lat, lng) (dlat, dlng)
          | None => 0
          end.
Proof.
  unfold distance_of, search_hit, with_distance.
  by rewrite obj_get_set_eq.
Qed.





End search.




(** The sample search finds the one donor, 5.0 km away. *)
Lemma available_sample :
  ∃ o, Donors.available (E := sample_external) (λ _, 0) sample_query no_requests
       = Donors.Ok [o]
       ∧ obj_get "_id" o = Some (VStr "d1")
       ∧ obj_get "distance" o = Some (VNum (50 # 10))
       ∧ obj_get "password" o = None.
Proof. eexists. split; [vm_compute; reflexivity | done]. Qed.

(** The completion route leaves the matched-donor entries as they are: no
    entry takes the status [completed] that the schema lists and the
    donor statistics of [routes/donors.js] count. *)
Lemma completed_matchedDonors (now : Date) (r : BloodRequest) :
  matchedDonors (completed now r) = matchedDonors r.
Proof. reflexivity. Qed.


(** * Further properties of the lifecycle *)

(** What any operation, with any arguments, does to a stored request. *)
Lemma run_request_step (op : Op) (st : Store) (id : Id) (r : BloodRequest) :
  requests st !! id = Some r →
  ∃ r', requests (run op st).2 !! id = Some r' ∧ request_step r r'.
Proof.
  intros Hr.
  assert (Hsame : ∀ st' : Store,
            requests st' = requests st →
            ∃ r', requests st' !! id = Some r' ∧ request_step r r').
  { intros st' ->. exists r. split; [done | constructor]. }
  assert (Hins : ∀ id' r0 r', requests st !! id' = Some r0 →
            request_step r0 r' →
            ∃ r'', <[id' := r']> (requests st) !! id = Some r''
                   ∧ request_step r r'').
  { intros id' r0 r' Hr0 Hstep. rewrite lookup_insert. case_decide as Hid.
    - subst id'. rewrite Hr in Hr0. injection Hr0 as <-. by exists r'.
    - exists r. split; [done | constructor]. }
  destruct op as [newId user body | now now' sinkOk user requestId newStatus notes
                 | now now' user requestId | now user requestId reason];
    unfold run.
  - destruct (createRequest_effect newId user body st)
      as [-> | (userId & _ & Hn & _ & ->)]; [by apply Hsame |].
    cbn. rewrite lookup_insert_ne by congruence.
    exists r. split; [done | constructor].
  - destruct user as [donorId |]; [| by apply Hsame].
    destruct (decide (donorId = "")) as [-> | Hd]; [by apply Hsame |].
    destruct requestId as [requestId | text];
      [| apply Hsame; by rewrite respond_malformed by done].
    destruct (requests st !! requestId) as [r0 |] eqn:Hr0;
      [| apply Hsame; by rewrite respond_cases, Hr0 by done].
    destruct (decide (status r0 = "active" ∨ status r0 = "matched")) as [Hs | Hs];
      [| apply Hsame; by rewrite respond_cases, Hr0, decide_False by done].
    destruct (BloodRequest_validate
                (Requests.responded donorId newStatus now now' notes r0)) eqn:Hv;
      [| apply Hsame; rewrite respond_cases, Hr0, decide_True by done;
         cbn zeta; by rewrite Hv].
    rewrite (respond_saved _ _ _ _ _ _ _ _ r0) by done.
    apply (Hins requestId r0); [done | by constructor].
  - destruct user as [userId |]; [| by apply Hsame].
    destruct (decide (userId = "")) as [-> | Hu]; [by apply Hsame |].
    destruct requestId as [requestId | text];
      [| apply Hsame; by rewrite complete_malformed by done].
    rewrite (complete_cases now now' userId requestId st Hu).
    destruct (requests st !! requestId) as [r0 |] eqn:Hr0; [| by apply Hsame].
    destruct (decide (may_complete userId r0)); [| by apply Hsame].
    destruct (decide (status r0 = "matched")); [| by apply Hsame].
    destruct (BloodRequest_validate _) eqn:Hv; [| by apply Hsame].
    cbn. apply (Hins requestId r0); [done | by constructor].
  - destruct user as [userId |]; [| by apply Hsame].
    destruct (decide (userId = "")) as [-> | Hu]; [by apply Hsame |].
    destruct requestId as [requestId | text];
      [| apply Hsame; by rewrite cancel_malformed by done].
    rewrite (cancel_cases now userId requestId reason st Hu).
    destruct (requests st !! requestId) as [r0 |] eqn:Hr0; [| by apply Hsame].
    destruct (Patients.cancellable userId r0) eqn:Hc; [| by apply Hsame].
    apply cancellable_spec in Hc as [_ Hs].
    cbn. apply (Hins requestId r0); [done | by constructor].
Qed.

Lemma request_step_transition (r r' : BloodRequest) :
  request_step r r' → transition (status r) (status r').
Proof.
  unfold transition. intros [| donorId newStatus now now' notes Hs _
                            | now Hs | now reason Hs].
  - by left.
  - rewrite responded_status. case_decide as Hm; [| by left].
    right. left. by destruct Hm.
  - right. right. right. done.
  - right. right. left. done.
Qed.

(** X1. Completed and cancelled are terminal: whatever operation is run,
    by whomever and with whatever arguments, a request in one of these
    states is found afterwards exactly as it was. *)
Theorem terminal_request_unchanged (op : Op) (st : Store) (id : Id)
    (r : BloodRequest) :
  requests st !! id = Some r →
  status r = "completed" ∨ status r = "cancelled" →
  requests (run op st).2 !! id = Some r.
Proof.
  intros Hr Hs.
  destruct (run_request_step op st id r Hr) as (r' & Hr' & Hstep).
  rewrite Hr'. f_equal.
  destruct Hstep as [| ? ? ? ? ? Ha _ | ? Ha | ? ? Ha]; [done | ..];
    destruct Hs as [Hs | Hs]; rewrite Hs in Ha; try discriminate;
    destruct Ha; discriminate.
Qed.

Lemma st_completed_lookup :
  requests st_completed !! "r1" = Some (completed 3000 r1_matched).
Proof. vm_compute. reflexivity. Qed.

Lemma terminal_request_unchanged_witness :
  requests (run (RecordDonorResponse 5000 5001 true (Some "d1") (ObjectIdText "r1")
                   "accepted" None) st_completed).2 !! "r1"
  = Some (completed 3000 r1_matched).
Proof.
  apply terminal_request_unchanged.
  - apply st_completed_lookup.
  - by left.
Defined.

(** X2. Under the four lifecycle routes ([POST /request],
    [POST /:id/respond], [POST /:id/complete],
    [PUT /requests/:id/cancel]) the status of a stored request only moves
    along the state machine: it stays, or goes from active to matched,
    from active or matched to cancelled, or from matched to completed.
    This holds for every argument of these routes, an answer with a
    status other than accepted or declined included.  (The update route
    [PUT /requests/:id], which writes what the body says, is not one of
    the four and is not covered.) *)
Theorem status_moves_along_state_machine (op : Op) (st : Store) (id : Id)
    (r r' : BloodRequest) :
  requests st !! id = Some r →
  requests (run op st).2 !! id = Some r' →
  transition (status r) (status r').
Proof.
  intros Hr Hr'.
  destruct (run_request_step op st id r Hr) as (r'' & Hr'' & Hstep).
  rewrite Hr' in Hr''. injection Hr'' as <-.
  by apply request_step_transition.
Qed.

Lemma status_moves_along_state_machine_witness :
  transition (status r1_matched) (status (completed 3000 r1_matched)).
Proof.
  apply (status_moves_along_state_machine
           (CompleteRequest 3000 3001 (Some "p1") (ObjectIdText "r1")) st_matched "r1").
  - apply st_matched_lookup.
  - apply st_completed_lookup.
Defined.

Lemma record_response_lookup donorId newStatus now now' notes
    (l : list MatchedDonor) (i : nat) (m : MatchedDonor) :
  l !! i = Some m →
  ∃ m', Requests.record_response donorId newStatus now now' notes l !! i = Some m'
        ∧ donor m' = donor m ∧ matchedAt m' = matchedAt m.
Proof.
  intros Hi. unfold Requests.record_response.
  destruct (list_find _ l) as [[j m0] |] eqn:Hf.
  - apply list_find_Some in Hf as (Hj & _).
    destruct (decide (j = i)) as [-> | Hne].
    + rewrite list_lookup_insert_eq by (by eapply lookup_lt_Some).
      rewrite Hi in Hj. injection Hj as <-. by eexists.
    + rewrite list_lookup_insert_ne by done. by exists m.
  - exists m. split; [| done]. by apply lookup_app_l_Some.
Qed.

(** X3. None of the four lifecycle routes ([POST /request],
    [POST /:id/respond], [POST /:id/complete],
    [PUT /requests/:id/cancel]) deletes a request or touches what the
    patient asked for: a stored request is still stored after a call of
    one of them, with the same owner, blood type, urgency, hospital, unit
    count, description and medical notes.  (Changing these is left to
    the update route [PUT /requests/:id], which is not covered.) *)
Theorem request_kept_with_its_order (op : Op) (st : Store) (id : Id)
    (r : BloodRequest) :
  requests st !! id = Some r →
  ∃ r', requests (run op st).2 !! id = Some r'
        ∧ patient r' = patient r ∧ bloodType r' = bloodType r
        ∧ urgency r' = urgency r ∧ hospital r' = hospital r
        ∧ requiredUnits r' = requiredUnits r
        ∧ description r' = description r
        ∧ medicalNotes r' = medicalNotes r.
Proof.
  intros Hr.
  destruct (run_request_step op st id r Hr) as (r' & Hr' & Hstep).
  exists r'. split; [done |].
  destruct Hstep as [| donorId newStatus now now' notes _ _ | |]; try done.
  destruct (responded_frame donorId newStatus now now' notes r)
    as (? & ? & ? & ? & ? & ? & ? & _).
  done.
Qed.

Lemma request_kept_with_its_order_witness :
  ∃ r', requests (run (CancelRequest 2500 (Some "p1") (ObjectIdText "r1") None) st_matched).2
          !! "r1" = Some r'
        ∧ patient r' = patient r1_matched ∧ bloodType r' = bloodType r1_matched
        ∧ urgency r' = urgency r1_matched ∧ hospital r' = hospital r1_matched
        ∧ requiredUnits r' = requiredUnits r1_matched
        ∧ description r' = description r1_matched
        ∧ medicalNotes r' = medicalNotes r1_matched.
Proof.
  apply request_kept_with_its_order. apply st_matched_lookup.
Defined.

(** X4. The four lifecycle routes ([POST /request], [POST /:id/respond],
    [POST /:id/complete], [PUT /requests/:id/cancel]) never remove or
    reorder matched-donor entries, and an entry keeps its donor and its
    [matchedAt]: after a call of one of them the list has at every old
    position an entry of the same donor matched at the same time (only
    status, [respondedAt] and notes of an entry can change).  (The
    update route [PUT /requests/:id] is not covered.) *)
Theorem matched_donor_entries_kept (op : Op) (st : Store) (id : Id)
    (r : BloodRequest) (i : nat) (m : MatchedDonor) :
  requests st !! id = Some r →
  matchedDonors r !! i = Some m →
  ∃ r' m', requests (run op st).2 !! id = Some r'
           ∧ matchedDonors r' !! i = Some m'
           ∧ donor m' = donor m ∧ matchedAt m' = matchedAt m.
Proof.
  intros Hr Hi.
  destruct (run_request_step op st id r Hr) as (r' & Hr' & Hstep).
  exists r'.
  destruct Hstep as [| donorId newStatus now now' notes _ _ | |];
    try (by exists m).
  destruct (record_response_lookup donorId newStatus now now' notes
              (matchedDonors r) i m Hi) as (m' & Hm' & ? & ?).
  exists m'. by rewrite responded_matchedDonors.
Qed.

Lemma matched_donor_entries_kept_witness :
  ∃ r' m',
    requests (run (RecordDonorResponse 2000 2001 true (Some "d1") (ObjectIdText "r1")
                     "declined" (Some "sorry")) st_matched).2 !! "r1" = Some r'
    ∧ matchedDonors r' !! 0%nat = Some m'
    ∧ donor m' = "d1" ∧ matchedAt m' = 1001.
Proof.
  destruct (matched_donor_entries_kept
              (RecordDonorResponse 2000 2001 true (Some "d1") (ObjectIdText "r1") "declined"
                 (Some "sorry"))
              st_matched "r1" r1_matched 0
              (Requests.new_match "d1" "accepted" 1000 1001 None))
    as (r' & m' & ? & ? & ? & ?).
  - apply st_matched_lookup.
  - reflexivity.
  - by exists r', m'.
Defined.

(** X5. An operation writes at most one request document, and a document
    under a new id appears only through [POST /request]: it is then the
    request built from the body, active and without matched donor. *)
Theorem one_request_written (op : Op) (st : Store) :
  (∃ target, ∀ id, id ≠ target →
               requests (run op st).2 !! id = requests st !! id)
  ∧ (∀ id r', requests st !! id = None →
              requests (run op st).2 !! id = Some r' →
              ∃ user body userId,
                op = CreateRequest id user body
                ∧ r' = Patients.new_request userId body
                ∧ status r' = "active" ∧ matchedDonors r' = []).
Proof.
  destruct (run_effect op st) as [Heq | (target & r'' & Heq & Hop)];
    rewrite Heq; split.
  - by exists "".
  - intros id r' Hn Hr'. congruence.
  - exists target. intros id Hne. by rewrite lookup_insert_ne.
  - intros id r' Hn. rewrite lookup_insert. case_decide as Hid; [| congruence].
    intros [= <-]. subst target.
    destruct op as [newId user body | | |]; cbn in Hop.
    + destruct Hop as (-> & _ & _ & userId & ->). by exists user, body, userId.
    + destruct Hop as (_ & _ & ? & r & _ & Hr & _). congruence.
    + destruct Hop as (_ & _ & r & Hr & _). congruence.
    + destruct Hop as (_ & r & Hr & _). congruence.
Qed.

(** The users an operation leaves behind: those it found, or those with
    the first accepted donor of some request marked as having donated. *)
Lemma run_users (op : Op) (st : Store) :
  users (run op st).2 = users st
  ∨ ∃ now' r, users (run op st).2 = donated now' r (users st).
Proof.
  destruct op as [newId user body | now now' sinkOk user requestId newStatus notes
                 | now now' user requestId | now user requestId reason];
    unfold run.
  - left. by destruct (createRequest_effect newId user body st)
      as [-> | (userId & _ & _ & _ & ->)].
  - left. destruct user as [donorId |]; [| done].
    destruct (decide (donorId = "")) as [-> | Hd]; [done |].
    destruct requestId as [requestId | text];
      [| by rewrite respond_malformed by done].
    rewrite respond_cases by done.
    destruct (requests st !! requestId) as [r |]; [| done].
    case_decide; [| done]. cbn zeta.
    destruct (BloodRequest_validate _); [| done].
    destruct (Notification_save _ _ _) as [st2 |] eqn:Hn; [| done].
    cbn. by apply Notification_save_frame in Hn as [_ ->].
  - destruct user as [userId |]; [| by left].
    destruct (decide (userId = "")) as [-> | Hu]; [by left |].
    destruct requestId as [requestId | text];
      [| by rewrite complete_malformed by done; left].
    rewrite (complete_cases now now' userId requestId st Hu).
    destruct (requests st !! requestId) as [r |]; [| by left].
    destruct (decide (may_complete userId r)); [| by left].
    destruct (decide (status r = "matched")); [| by left].
    right. exists now', r. by destruct (BloodRequest_validate _).
  - left. destruct user as [userId |]; [| done].
    destruct (decide (userId = "")) as [-> | Hu]; [done |].
    destruct requestId as [requestId | text];
      [| by rewrite cancel_malformed by done].
    rewrite (cancel_cases now userId requestId reason st Hu).
    destruct (requests st !! requestId) as [r |]; [| done].
    by destruct (Patients.cancellable userId r).
Qed.

(** X6. The lifecycle never registers, removes or re-types a user: after
    any operation the same user ids exist, and every user keeps name,
    e-mail, password, phone, role, blood type, location, verification
    flag and medical history.  A record either is untouched or has been
    made unavailable with a last donation date. *)
Theorem users_kept (op : Op) (st : Store) (id : Id) :
  match users st !! id with
  | None => users (run op st).2 !! id = None
  | Some u =>
      ∃ u', users (run op st).2 !! id = Some u'
            ∧ name u' = name u ∧ email u' = email u
            ∧ password u' = password u ∧ phone u' = phone u
            ∧ userType u' = userType u ∧ u_bloodType u' = u_bloodType u
            ∧ location u' = location u ∧ isVerified u' = isVerified u
            ∧ medicalHistory u' = medicalHistory u
            ∧ (u' = u
               ∨ (isAvailable u' = false ∧ is_Some (lastDonationDate u')))
  end.
Proof.
  destruct (run_users op st) as [-> | (now' & r & ->)].
  - destruct (users st !! id) as [u |]; [| done]. exists u. split_and!; auto.
  - unfold donated. destruct (first_accepted r) as [m |].
    + rewrite lookup_alter. case_decide as Hid.
      * subst id. destruct (users st !! donor m) as [u |]; cbn; [| done].
        eexists. split_and!; try done. right. by split.
      * destruct (users st !! id) as [u |]; [| done].
        exists u. split_and!; auto.
    + destruct (users st !! id) as [u |]; [| done]. exists u. split_and!; auto.
Qed.


Lemma st_two_accepted_lookup :
  requests st_two_accepted !! "r1" = Some r1_two_accepted.
Proof. vm_compute. reflexivity. Qed.

(** The users after [POST /:id/complete] got past its three checks. *)
Lemma complete_users now now' (userId requestId : Id) (st : Store)
    (r : BloodRequest) :
  userId ≠ "" → requests st !! requestId = Some r →
  may_complete userId r → status r = "matched" →
  users (Requests.complete now now' (Some userId) (ObjectIdText requestId) st).2
  = donated now' r (users st).
Proof.
  intros Hu Hr Hm Hs. rewrite complete_cases by done. rewrite Hr.
  rewrite !decide_True by done. by destruct (BloodRequest_validate _).
Qed.

(** X7. The donor marked as having donated is the first accepted one of
    the list, not the one who completes: when an accepted donor other
    than the first accepted one completes a matched request, the record
    of the acting donor is left as it was, and the record of the donor of
    the first accepted entry gets the time of the completion as
    [lastDonationDate] and [isAvailable] false, every other field of it
    staying as it was; when that donor has no user record, none is
    made. *)
Theorem complete_marks_first_accepted_donor now now' (userId requestId : Id)
    (st : Store) (r : BloodRequest) (m : MatchedDonor) :
  userId ≠ "" → requests st !! requestId = Some r →
  may_complete userId r → status r = "matched" →
  first_accepted r = Some m → donor m ≠ userId →
  let st' := (Requests.complete now now' (Some userId) (ObjectIdText requestId)
                st).2 in
  users st' !! userId = users st !! userId
  ∧ (∃ l1 l2, matchedDonors r = l1 ++ m :: l2 ∧ md_status m = "accepted"
              ∧ Forall (λ x, md_status x ≠ "accepted") l1)
  ∧ (∀ u, users st !! donor m = Some u →
       ∃ u', users st' !! donor m = Some u'
             ∧ lastDonationDate u' = Some now' ∧ isAvailable u' = false
             ∧ name u' = name u ∧ email u' = email u
             ∧ password u' = password u ∧ phone u' = phone u
             ∧ userType u' = userType u ∧ u_bloodType u' = u_bloodType u
             ∧ location u' = location u ∧ isVerified u' = isVerified u
             ∧ medicalHistory u' = medicalHistory u)
  ∧ (users st !! donor m = None → users st' !! donor m = None).
Proof.
  intros Hu Hr Hm Hs Hf Hne st'. subst st'.
  rewrite (complete_users now now' userId requestId st r) by done.
  unfold donated. rewrite Hf, !lookup_alter.
  rewrite decide_False, decide_True by done. split_and!.
  - done.
  - by apply first_accepted_Some.
  - intros u ->. cbn. eexists. split; [reflexivity |]. by split_and!.
  - by intros ->.
Qed.

Lemma complete_marks_first_accepted_donor_witness :
  users (Requests.complete 3000 3001 (Some "d2") (ObjectIdText "r1")
           st_two_accepted).2 !! "d2"
  = users st_two_accepted !! "d2"
  ∧ ∃ u', users (Requests.complete 3000 3001 (Some "d2") (ObjectIdText "r1")
                   st_two_accepted).2 !! "d1" = Some u'
          ∧ lastDonationDate u' = Some 3001 ∧ isAvailable u' = false
          ∧ name u' = name sample_donor.
Proof.
  destruct (complete_marks_first_accepted_donor 3000 3001 "d2" "r1"
              st_two_accepted r1_two_accepted
              (Requests.new_match "d1" "accepted" 1000 1001 None))
    as (Hself & _ & Hdonor & _).
  - discriminate.
  - apply st_two_accepted_lookup.
  - right. apply Exists_cons_tl, Exists_cons_hd. by split.
  - reflexivity.
  - reflexivity.
  - discriminate.
  - split; [exact Hself |].
    destruct (Hdonor sample_donor) as (u' & Hu' & Hlast & Hav & Hname & _).
    + reflexivity.
    + by exists u'.
Defined.

(** An answer leaves the user collection alone. *)
Lemma respond_users now now' sinkOk user requestId newStatus notes st :
  users (Requests.respond now now' sinkOk user requestId newStatus notes st).2
  = users st.
Proof.
  destruct user as [donorId |]; [| done].
  destruct (decide (donorId = "")) as [-> | Hd]; [done |].
  destruct requestId as [requestId | text];
    [| by rewrite respond_malformed by done].
  rewrite respond_cases by done.
  destruct (requests st !! requestId) as [r |]; [| done].
  case_decide; [| done]. cbn zeta.
  destruct (BloodRequest_validate _); [| done].
  destruct (Notification_save _ _ _) as [st2 |] eqn:Hn; [| done].
  cbn. by apply Notification_save_frame in Hn as [_ ->].
Qed.

(** A donor marked as having donated is unavailable, hence ineligible
    whatever the time. *)
Lemma mark_donated_ineligible (now' t : Date) (u : User) :
  isEligibleToDonate t (Requests.mark_donated now' u) = false.
Proof.
  unfold isEligibleToDonate. cbn. by destruct (negb (bool_decide _)).
Qed.




(** ** Creating a request *)

Lemma maxlength_spec (n : nat) (s : option string) :
  maxlength n s = true ↔ ∀ t, s = Some t → (utf16_length t ≤ n)%nat.
Proof.
  destruct s as [t |]; cbn.
  - rewrite bool_decide_eq_true. split; [by intros ? ? [= <-] | eauto].
  - split; [by intros _ ? [=] | done].
Qed.

Lemma maxlength_false (n : nat) (s : option string) :
  maxlength n s = false ↔ ∃ t, s = Some t ∧ (n < utf16_length t)%nat.
Proof.
  destruct s as [t |]; cbn.
  - rewrite bool_decide_eq_false. split.
    + intros H. exists t. split; [done | lia].
    + intros (? & [= <-] & ?). lia.
  - split; [done | by intros (? & [=] & _)].
Qed.

Lemma isInt_min_1_spec (n : Z) :
  Patients.isInt_min_1 n = true ↔ 1 ≤ n < 10 ^ 21.
Proof.
  unfold Patients.isInt_min_1. rewrite andb_true_iff, !bool_decide_eq_true. lia.
Qed.

(** When the request validators pass, the schema validators of [save]
    have only the two length limits left to check. *)
Lemma new_request_validate (userId : Id) (body : Patients.CreateBody) :
  Patients.validationResult body = [] →
  BloodRequest_validate (Patients.new_request userId body)
  = maxlength 500 (Patients.cb_description body)
    && maxlength 1000 (Patients.cb_medicalNotes body).
Proof.
  unfold Patients.validationResult, BloodRequest_validate. cbn.
  intros H.
  apply app_eq_nil in H as [Hb H]. apply app_eq_nil in H as [Hu H].
  apply app_eq_nil in H as [Hn H]. apply app_eq_nil in H as [_ Hq].
  destruct (bool_decide (default "" (Patients.cb_bloodType body) ∈ _));
    [| done].
  destruct (bool_decide (default "" (Patients.cb_urgency body) ∈ _));
    [| done].
  assert (Hname : bool_decide
                    (default "" (Patients.cb_hospital_name body) = "") = false).
  { destruct (Patients.cb_hospital_name body) as [n |]; [| done]. cbn in *.
    by destruct (bool_decide (n = "")). }
  rewrite Hname.
  assert (Hunits : bool_decide (1 ≤ default 1 (Patients.cb_requiredUnits body))
                   = true).
  { destruct (Patients.cb_requiredUnits body) as [n |]; [| done]. cbn in *.
    destruct (Patients.isInt_min_1 n) eqn:Hint; [| done].
    apply isInt_min_1_spec in Hint. apply bool_decide_eq_true. lia. }
  rewrite Hunits. done.
Qed.

(** X9. The outcomes of [POST /request].  A body the request validators
    refuse is answered 400 with their messages, before authentication is
    looked at; then a caller without user id gets 401; then a
    description over 500 UTF-16 code units or medical notes over 1000,
    which the request validators do not check, make [save] fail and the
    answer 500, as does an id already taken; in all these cases the
    store is untouched.  Otherwise, when the two coordinates are a
    longitude within [-180, 180] and a latitude within [-90, 90] (what
    the geospatial index of the collection takes), the answer is 201 and
    the store holds under the new id a request of the caller that is
    active, has no matched donor and needs one unit unless the body says
    more. *)
Theorem createRequest_outcomes (newId : Id) (user : option Id)
    (body : Patients.CreateBody) (st : Store) :
  let out := Patients.createRequest newId user body st in
  (Patients.validationResult body ≠ [] →
   out = (JsonErrors 400 (Patients.validationResult body), st))
  ∧ (Patients.validationResult body = [] → truthy user = false →
     out = (Json 401 "Authentication required" None, st))
  ∧ (Patients.validationResult body = [] → truthy user = true →
     (∃ d, Patients.cb_description body = Some d
           ∧ (500 < utf16_length d)%nat)
     ∨ (∃ n, Patients.cb_medicalNotes body = Some n
             ∧ (1000 < utf16_length n)%nat)
     ∨ is_Some (requests st !! newId) →
     out = (Json 500 "Server error" None, st))
  ∧ (∀ userId lng lat, Patients.validationResult body = [] →
       user = Some userId → userId ≠ "" →
       (∀ d, Patients.cb_description body = Some d →
             (utf16_length d ≤ 500)%nat) →
       (∀ n, Patients.cb_medicalNotes body = Some n →
             (utf16_length n ≤ 1000)%nat) →
       Patients.cb_coordinates body = Some [lng; lat] →
       (-180 <= lng)%Q → (lng <= 180)%Q → (-90 <= lat)%Q → (lat <= 90)%Q →
       requests st !! newId = None →
       ∃ r, out = (Json 201 "Blood request created successfully" (Some r),
                   with_requests (<[newId := r]> (requests st)) st)
            ∧ patient r = userId ∧ status r = "active"
            ∧ matchedDonors r = []
            ∧ requiredUnits r = default 1 (Patients.cb_requiredUnits body)
            ∧ completedAt r = None ∧ cancelledAt r = None).
Proof.
  cbn zeta. unfold Patients.createRequest. split_and!.
  - by destruct (Patients.validationResult body).
  - intros -> Ht. destruct user; [| done]. by rewrite Ht.
  - intros Hv Ht Hbad. rewrite Hv.
    destruct user as [userId |]; [| done]. rewrite Ht. cbn.
    rewrite new_request_validate by done.
    destruct Hbad as [(d & Hd & Hlong) | [(n & Hn & Hlong) | [r ->]]].
    + rewrite (proj2 (maxlength_false 500 _)); [done |]. by exists d.
    + rewrite (proj2 (maxlength_false 1000 (Patients.cb_medicalNotes body)));
        [by rewrite andb_false_r |]. by exists n.
    + destruct (_ && _); [| done]. cbn. by destruct (negb _).
  - intros userId lng lat Hv -> Hu Hld Hln Hc Hlng1 Hlng2 Hlat1 Hlat2 Hn.
    rewrite Hv. cbn.
    rewrite (bool_decide_eq_false_2 _ Hu). cbn.
    rewrite new_request_validate by done.
    rewrite !(proj2 (maxlength_spec _ _)) by done. cbn.
    unfold Patients.geo_index_accepts. cbn. rewrite Hc. cbn.
    rewrite !(proj2 (Qle_bool_iff _ _)) by done. cbn. rewrite Hn.
    by eexists.
Qed.

Lemma createRequest_outcomes_witness :
  ∃ r, Patients.createRequest "r2" (Some "p1") sample_body_low st_active
       = (Json 201 "Blood request created successfully" (Some r),
          with_requests (<["r2" := r]> (requests st_active)) st_active)
       ∧ patient r = "p1" ∧ status r = "active" ∧ requiredUnits r = 1.
Proof.
  destruct (createRequest_outcomes "r2" (Some "p1") sample_body_low st_active)
    as (_ & _ & _ & H).
  destruct (H "p1" (774 # 10)%Q (129 # 10)%Q)
    as (r & Hout & Hp & Hs & _ & Hunits & _);
    try reflexivity; try discriminate.
  by exists r.
Defined.

(** X10. What the request validators of [POST /request] ask for: a
    canonical blood type, one of the four urgency levels (urgency cannot
    be left out, although the schema has a default for it), a hospital
    name, exactly two coordinates, and, when units are given (as a number
    of integral value), at least one unit and less than 10^21 of them,
    from where on the number prints in exponent notation and is no
    integer to the validator. *)
Theorem validationResult_passes (body : Patients.CreateBody) :
  Patients.validationResult body = [] ↔
    (∃ b, Patients.cb_bloodType body = Some b ∧ b ∈ bloodType_enum)
    ∧ (∃ u, Patients.cb_urgency body = Some u ∧ u ∈ urgency_enum)
    ∧ (∃ n, Patients.cb_hospital_name body = Some n ∧ n ≠ "")
    ∧ (∃ lng lat, Patients.cb_coordinates body = Some [lng; lat])
    ∧ (∀ n, Patients.cb_requiredUnits body = Some n → 1 ≤ n < 10 ^ 21).
Proof.
  unfold Patients.validationResult.
  rewrite !app_nil.
  assert (Hin : ∀ (o : option string) (l : list string) (msg : string),
            "" ∉ l →
            (if bool_decide (default "" o ∈ l) then [] else [msg]) = []
            ↔ ∃ x, o = Some x ∧ x ∈ l).
  { intros o l msg Hl. destruct o as [x |]; cbn.
    - destruct (decide (x ∈ l)) as [Hx | Hx].
      + rewrite bool_decide_eq_true_2 by done. split; [by exists x | done].
      + rewrite bool_decide_eq_false_2 by done.
        split; [done | by intros (y & [= <-] & ?)].
    - rewrite bool_decide_eq_false_2 by done.
      split; [done | by intros (y & [=] & _)]. }
  rewrite (Hin _ bloodType_enum) by by_compute.
  rewrite (Hin _ urgency_enum) by by_compute.
  apply and_iff_compat_l, and_iff_compat_l.
  assert (Hname : (if truthy (Patients.cb_hospital_name body) then []
                   else ["Hospital name is required"]) = []
                  ↔ ∃ n, Patients.cb_hospital_name body = Some n ∧ n ≠ "").
  { destruct (Patients.cb_hospital_name body) as [n |]; cbn.
    - destruct (decide (n = "")) as [-> | Hn].
      + split; [done | by intros (y & [= <-] & ?)].
      + rewrite bool_decide_eq_false_2 by done. cbn.
        split; [by exists n | done].
    - split; [done | by intros (y & [=] & _)]. }
  rewrite Hname. apply and_iff_compat_l.
  assert (Hc : match Patients.cb_coordinates body with
               | Some [_; _] => []
               | _ => ["Hospital coordinates are required"]
               end = []
               ↔ ∃ lng lat, Patients.cb_coordinates body = Some [lng; lat]).
  { destruct (Patients.cb_coordinates body) as [[| x [| y [| z l]]] |];
      try (split; [done | by intros (? & ? & [=])]).
    split; [by exists x, y | done]. }
  rewrite Hc. apply and_iff_compat_l.
  destruct (Patients.cb_requiredUnits body) as [n |].
  - destruct (Patients.isInt_min_1 n) eqn:Hint.
    + apply isInt_min_1_spec in Hint. split; [by intros _ ? [= <-] | done].
    + split; [done |]. intros H.
      rewrite (proj2 (isInt_min_1_spec n)) in Hint by (by apply H). done.
  - split; [by intros _ ? [=] | done].
Qed.

(** ** Who may answer, and what is told *)

(** X11. The answer route never consults the user collection: whoever
    holds a token, whether registered as donor, as patient (the owner of
    the request included) or not at all, is recorded alike.  The response
    and the requests saved are the same whatever the users are. *)
Theorem respond_ignores_users now now' sinkOk user requestId newStatus notes
    (st : Store) (us : gmap Id User) :
  let out := Requests.respond now now' sinkOk user requestId newStatus notes st in
  let out' := Requests.respond now now' sinkOk user requestId newStatus notes
                (with_users us st) in
  out'.1 = out.1 ∧ requests out'.2 = requests out.2 ∧ users out'.2 = us.
Proof.
  cbn zeta. split_and!; [| | apply respond_users].
  - destruct user as [donorId |]; [| done].
    destruct (decide (donorId = "")) as [-> | Hd]; [done |].
    destruct requestId as [requestId | text];
      [| by rewrite !respond_malformed by done].
    rewrite !respond_cases by done. cbn [requests with_users].
    destruct (requests st !! requestId) as [r |]; [| done].
    case_decide; [| done]. cbn zeta.
    destruct (BloodRequest_validate _); [| done].
    unfold Notification_save. by destruct (_ && _).
  - destruct user as [donorId |]; [| done].
    destruct (decide (donorId = "")) as [-> | Hd]; [done |].
    destruct requestId as [requestId | text];
      [| by rewrite !respond_malformed by done].
    rewrite !respond_cases by done. cbn [requests with_users].
    destruct (requests st !! requestId) as [r |]; [| done].
    case_decide; [| done]. cbn zeta.
    destruct (BloodRequest_validate _); [| done].
    unfold Notification_save. by destruct (_ && _).
Qed.

(** X12. [isActive] is the guard of the routes: on a stored request it is
    false exactly when a donor's answer is refused with 400
    [Request is no longer active], and true exactly when the owner can
    cancel. *)
Theorem isActive_guards now now' sinkOk (donorId requestId : Id) newStatus notes
    (st : Store) (r : BloodRequest) :
  donorId ≠ "" → requests st !! requestId = Some r →
  (BloodRequestModel.isActive r = false ↔
     Requests.respond now now' sinkOk (Some donorId) (ObjectIdText requestId)
       newStatus notes st
     = (Json 400 "Request is no longer active" None, st))
  ∧ (BloodRequestModel.isActive r = true ↔
       Patients.cancellable (patient r) r = true).
Proof.
  intros Hd Hr. rewrite respond_cases by done. rewrite Hr.
  assert (Hact : BloodRequestModel.isActive r = true
                 ↔ status r = "active" ∨ status r = "matched").
  { unfold BloodRequestModel.isActive.
    by rewrite orb_true_iff, !bool_decide_eq_true. }
  split.
  - rewrite <- not_true_iff_false, Hact. case_decide as Hs.
    + split; [done |]. cbn zeta.
      destruct (BloodRequest_validate _); [| done].
      by destruct (Notification_save _ _ _).
    + done.
  - rewrite Hact, cancellable_spec. tauto.
Qed.

Lemma isActive_guards_witness :
  (BloodRequestModel.isActive r1_matched = false ↔
     Requests.respond 2000 2001 true (Some "d2") (ObjectIdText "r1") "accepted" None st_matched
     = (Json 400 "Request is no longer active" None, st_matched))
  ∧ (BloodRequestModel.isActive r1_matched = true ↔
       Patients.cancellable (patient r1_matched) r1_matched = true).
Proof.
  apply isActive_guards.
  - discriminate.
  - apply st_matched_lookup.
Defined.

(** X13. No operation leaves a notification behind, and the answer route
    never reports success: the notification it builds has the type
    [donor_response], which the notification schema does not list, so
    its [save] is refused and the route ends in its [catch] with 500,
    also when the donor's answer has been saved. *)
Theorem no_notification_saved (op : Op) (st : Store) :
  notifications (run op st).2 = notifications st
  ∧ match op with
    | RecordDonorResponse _ _ _ _ _ _ _ => http_status (run op st).1 ≠ 200
    | _ => True
    end.
Proof.
  split.
  - pose proof (notifications_unchanged op st) as H.
    destruct op as [| now now' sinkOk user requestId newStatus notes | |];
      try exact H.
    unfold run. destruct user as [donorId |]; [| done].
    destruct (decide (donorId = "")) as [-> | Hd]; [done |].
    destruct requestId as [requestId | text];
      [| by rewrite respond_malformed by done].
    rewrite respond_cases by done.
    destruct (requests st !! requestId) as [r |]; [| done].
    case_decide; [| done]. cbn zeta.
    destruct (BloodRequest_validate _); [| done].
    unfold Notification_save.
    by rewrite donor_response_notification_rejected.
  - destruct op; try done. apply respond_never_200.
Qed.


(** ** The compatibility table as a relation *)

Lemma can_donate_to_order_table :
  Forall (λ a, can_donate_to a a = true
               ∧ Forall (λ b, (can_donate_to a b = true →
                               can_donate_to b a = true → a = b)
                              ∧ Forall (λ c, can_donate_to a b = true →
                                             can_donate_to b c = true →
                                             can_donate_to a c = true)
                                       bloodType_enum)
                        bloodType_enum)
         bloodType_enum.
Proof. by_compute. Qed.

(** X14. On the eight canonical types, "can donate to" as the table has
    it is a partial order: every type can donate to itself, two distinct
    types never donate to each other, and if [a] can donate to [b] and
    [b] to [c] then [a] can donate to [c]. *)
Theorem can_donate_to_partial_order (a b c : string) :
  a ∈ bloodType_enum → b ∈ bloodType_enum → c ∈ bloodType_enum →
  can_donate_to a a = true
  ∧ (can_donate_to a b = true → can_donate_to b a = true → a = b)
  ∧ (can_donate_to a b = true → can_donate_to b c = true →
     can_donate_to a c = true).
Proof.
  intros Ha Hb Hc.
  pose proof can_donate_to_order_table as H.
  rewrite Forall_forall in H. destruct (H a Ha) as [Hrefl H'].
  rewrite Forall_forall in H'. destruct (H' b Hb) as [Hanti H''].
  rewrite Forall_forall in H''. by split_and!; [| | apply H''].
Qed.

Lemma can_donate_to_partial_order_witness :
  can_donate_to "O-" "O-" = true
  ∧ (can_donate_to "O-" "A-" = true → can_donate_to "A-" "O-" = true →
     "O-" = "A-")
  ∧ (can_donate_to "O-" "A-" = true → can_donate_to "A-" "AB+" = true →
     can_donate_to "O-" "AB+" = true).
Proof.
  apply (can_donate_to_partial_order "O-" "A-" "AB+"); by_compute.
Defined.

(** X15. Every type the table lists is one of the eight canonical types,
    and an Rh-negative recipient is only ever given Rh-negative donor
    types. *)
Theorem can_donate_to_rhesus (donorType recipient : string) :
  can_donate_to donorType recipient = true →
  donorType ∈ bloodType_enum
  ∧ recipient ∈ bloodType_enum
  ∧ (recipient ∈ negative_types → donorType ∈ negative_types).
Proof.
  unfold can_donate_to, Donors.getCompatibleBloodTypes, js_get.
  destruct (decide (recipient ∈ bloodType_enum)) as [HR | HR].
  - unfold bloodType_enum in HR.
    repeat (apply elem_of_cons in HR as [-> | HR]);
      [..| by apply elem_of_nil in HR];
      cbn; intros HD%bool_decide_eq_true;
      repeat (apply elem_of_cons in HD as [-> | HD]);
      try (by apply elem_of_nil in HD);
      (split_and!; [by_compute | by_compute |]);
      first [intros _; by_compute
            | intros Hneg; exfalso; revert Hneg; by_compute].
  - rewrite (compatibility_unknown recipient HR).
    by destruct (bool_decide (recipient ∈ Object_prototype_keys)).
Qed.

Lemma can_donate_to_rhesus_witness :
  "A-" ∈ bloodType_enum ∧ "AB-" ∈ bloodType_enum
  ∧ ("AB-" ∈ negative_types → "A-" ∈ negative_types).
Proof. apply can_donate_to_rhesus. reflexivity. Defined.

(** X16. What [getCompatibleBloodTypes] returns on every string: for the
    twelve property names an object literal inherits, the inherited
    member; for every other string the row of the table, which is empty
    outside the eight canonical types. *)
Theorem getCompatibleBloodTypes_cases (bloodType : string) :
  Donors.getCompatibleBloodTypes bloodType
  = if bool_decide (bloodType ∈ Object_prototype_keys)
    then JInherited bloodType
    else JArr (CompatibleDonorTypes bloodType).
Proof.
  destruct (decide (bloodType ∈ bloodType_enum)) as [HR | HR].
  - unfold bloodType_enum in HR.
    repeat (apply elem_of_cons in HR as [-> | HR]); try reflexivity.
    by apply elem_of_nil in HR.
  - unfold Donors.getCompatibleBloodTypes, js_get.
    rewrite (compatibility_unknown _ HR), (CompatibleDonorTypes_unknown _ HR).
    by destruct (bool_decide _).
Qed.

(** ** Eligibility over time *)

(** X17. Waiting never costs eligibility: a user eligible at some time is
    eligible, the record unchanged, at every later time. *)
Theorem isEligibleToDonate_monotone (t t' : Date) (u : User) :
  isEligibleToDonate t u = true → t ≤ t' → isEligibleToDonate t' u = true.
Proof.
  rewrite !isEligibleToDonate_iff.
  intros (Ht & Ha & Hv & Hl) Hle. split_and!; try done.
  destruct Hl as [Hl | (last & Hl & Hge)]; [by left |].
  right. exists last. split; [done | lia].
Qed.

Lemma isEligibleToDonate_monotone_witness :
  isEligibleToDonate 5 sample_donor = true.
Proof.
  apply (isEligibleToDonate_monotone 0 5 sample_donor); [reflexivity | lia].
Defined.

(** ** [PUT /availability] *)

Section availability.
Import DonorAccount.

Lemma availability_cases (userId : Id) available last st :
  userId ≠ "" →
  availability (Some userId) available (Some <$> last) st
  = match users st !! userId with
    | Some u =>
        (DonorJson 200 "Availability updated successfully"
           (Some (Donors.toObject
                    (userId,
                     without_password (updated available last u)))),
         with_users
           (<[userId := updated available last u]> (users st)) st)
    | None => (DonorJson 404 "Donor not found" None, st)
    end.
Proof.
  intros Hu. unfold availability. cbn.
  rewrite (bool_decide_eq_false_2 _ Hu). cbn.
  by destruct last.
Qed.

Lemma toObject_without_password (id : Id) (u : User) :
  obj_get "password" (Donors.toObject (id, without_password u)) = None
  ∧ obj_get "medicalHistory" (Donors.toObject (id, without_password u))
    = (λ h, VList (Donors.MedicalEntry_toObject <$> h)) <$> medicalHistory u.
Proof.
  unfold Donors.toObject. cbn.
  destruct (u_bloodType u), (location u) as [[] |], (medicalHistory u);
    by split.
Qed.

Lemma updated_nothing (u : User) : updated None None u = u.
Proof. by destruct u. Qed.

End availability.

(** X18. [PUT /availability] for an authenticated user: an unknown user id
    gives 404 and an invalid date 500, the store untouched.  Otherwise
    the answer is 200; of the whole store only [isAvailable] and
    [lastDonationDate] of that user can differ afterwards, each taking
    the value of the body when the body has one, so an empty body
    changes nothing.  The record in the answer has no password but,
    unlike the records of donor search, still has the medical history. *)
Theorem availability_update (userId : Id) available last
    (st : Store) :
  userId ≠ "" →
  let out := DonorAccount.availability (Some userId) available
               (Some <$> last) st in
  (users st !! userId = None →
   out = (DonorAccount.DonorJson 404 "Donor not found" None, st))
  ∧ DonorAccount.availability (Some userId) available (Some None) st
    = (DonorAccount.DonorJson 500 "Server error" None, st)
  ∧ (∀ u, users st !! userId = Some u →
       ∃ u' o,
         out.1 = DonorAccount.DonorJson 200 "Availability updated successfully"
                   (Some o)
         ∧ obj_get "password" o = None
         ∧ obj_get "medicalHistory" o
           = (λ h, VList (Donors.MedicalEntry_toObject <$> h))
               <$> medicalHistory u
         ∧ users out.2 !! userId = Some u'
         ∧ isAvailable u' = default (isAvailable u) available
         ∧ lastDonationDate u'
           = match last with
             | Some t => Some t
             | None => lastDonationDate u
             end
         ∧ name u' = name u ∧ email u' = email u ∧ password u' = password u
         ∧ phone u' = phone u ∧ userType u' = userType u
         ∧ u_bloodType u' = u_bloodType u ∧ location u' = location u
         ∧ isVerified u' = isVerified u
         ∧ medicalHistory u' = medicalHistory u
         ∧ (∀ id, id ≠ userId → users out.2 !! id = users st !! id)
         ∧ requests out.2 = requests st
         ∧ notifications out.2 = notifications st
         ∧ (available = None → last = None → out.2 = st)).
Proof.
  intros Hu out. subst out. rewrite availability_cases by done.
  split_and!.
  - by intros ->.
  - unfold DonorAccount.availability. cbn.
    by rewrite (bool_decide_eq_false_2 _ Hu).
  - intros u Hl. rewrite Hl.
    destruct (toObject_without_password userId
                (DonorAccount.updated available last u))
      as [Hp Hm].
    exists (DonorAccount.updated available last u),
      (Donors.toObject
         (userId,
          DonorAccount.without_password (DonorAccount.updated available last u))).
    split_and!; try done.
    + cbn. apply lookup_insert_eq.
    + intros id Hne. cbn. by rewrite lookup_insert_ne.
    + intros -> ->. cbn. rewrite updated_nothing, insert_id by done.
      apply with_users_id.
Qed.

Lemma availability_update_witness :
  ∃ u', users (DonorAccount.availability (Some "d1") (Some false) None
                 no_requests).2 !! "d1" = Some u'
        ∧ isAvailable u' = false
        ∧ lastDonationDate u' = None
        ∧ isVerified u' = true.
Proof.
  destruct (availability_update "d1" (Some false) None no_requests)
    as (_ & _ & H); [discriminate |].
  destruct (H sample_donor) as (u' & o & _ & _ & _ & Hu' & Ha & Hl & H');
    [reflexivity |].
  exists u'. split_and!; try done. by destruct H' as (_ & _ & _ & _ & _ & _ & _ & -> & _).
Defined.

(** ** The cooldown across routes *)

(** X19. After a completion, re-opting in does not end the cooldown: when
    a request has been completed and its first accepted donor then
    switches availability back on through [PUT /availability], that
    donor is eligible exactly from 56 days after the completion on
    (provided the record is a verified donor's). *)
Theorem cooldown_survives_reopt_in now now' (userId requestId : Id)
    (st : Store) (r : BloodRequest) (m : MatchedDonor) (u : User) :
  userId ≠ "" → requests st !! requestId = Some r →
  may_complete userId r → status r = "matched" →
  first_accepted r = Some m → donor m ≠ "" →
  users st !! donor m = Some u →
  let st1 := (Requests.complete now now' (Some userId) (ObjectIdText requestId)
                st).2 in
  let st2 := (DonorAccount.availability (Some (donor m)) (Some true) None
                st1).2 in
  ∃ u2, users st2 !! donor m = Some u2
        ∧ ∀ t, isEligibleToDonate t u2 = true
               ↔ userType u = "donor" ∧ isVerified u = true
                 ∧ 56 * day ≤ t - now'.
Proof.
  intros Hu Hr Hm Hs Hf Hd Hl st1 st2.
  assert (Hl1 : users st1 !! donor m = Some (Requests.mark_donated now' u)).
  { unfold st1. rewrite (complete_users now now' userId requestId st r) by done.
    unfold donated. rewrite Hf, lookup_alter.
    by rewrite decide_True, Hl by done. }
  exists (DonorAccount.updated (Some true) None (Requests.mark_donated now' u)).
  split.
  - unfold st2.
    pose proof (availability_cases (donor m) (Some true) None st1 Hd) as Hc.
    change (Some <$> None) with (@None (option Date)) in Hc.
    rewrite Hc, Hl1. cbn. apply lookup_insert_eq.
  - intros t. rewrite isEligibleToDonate_iff. cbn. split.
    + intros (? & _ & ? & [? | (last & [= <-] & ?)]); done.
    + intros (? & ? & ?). split_and!; try done. right. by exists now'.
Qed.

Lemma cooldown_survives_reopt_in_witness :
  ∃ u2,
    users (DonorAccount.availability (Some "d1") (Some true) None
             (Requests.complete 3000 3001 (Some "p1") (ObjectIdText "r1") st_matched).2).2
      !! "d1" = Some u2
    ∧ ∀ t, isEligibleToDonate t u2 = true
           ↔ userType sample_donor = "donor" ∧ isVerified sample_donor = true
             ∧ 56 * day ≤ t - 3001.
Proof.
  apply (cooldown_survives_reopt_in 3000 3001 "p1" "r1" st_matched r1_matched
           (Requests.new_match "d1" "accepted" 1000 1001 None) sample_donor).
  - discriminate.
  - apply st_matched_lookup.
  - by left.
  - reflexivity.
  - reflexivity.
  - discriminate.
  - reflexivity.
Defined.

(** X20. The cooldown rests on a date the donor may rewrite: a verified
    donor who sends [isAvailable] true and a [lastDonationDate] of their
    choosing to [PUT /availability] is eligible exactly from 56 days
    after the date sent, whatever donation date and availability the
    record held before. *)
Theorem cooldown_follows_the_date_sent (userId : Id) (last : Date)
    (st : Store) (u : User) :
  userId ≠ "" → users st !! userId = Some u →
  userType u = "donor" → isVerified u = true →
  let st' := (DonorAccount.availability (Some userId) (Some true)
                (Some (Some last)) st).2 in
  ∃ u', users st' !! userId = Some u'
        ∧ ∀ t, isEligibleToDonate t u' = true ↔ 56 * day ≤ t - last.
Proof.
  intros Hu Hl Ht Hv st'.
  exists (DonorAccount.updated (Some true) (Some last) u). split.
  - unfold st'.
    pose proof (availability_cases userId (Some true) (Some last) st Hu) as Hc.
    change (Some <$> Some last) with (Some (Some last)) in Hc.
    rewrite Hc, Hl. cbn. apply lookup_insert_eq.
  - intros t. rewrite isEligibleToDonate_iff. cbn. split.
    + intros (_ & _ & _ & [? | (l & [= <-] & ?)]); done.
    + intros ?. split_and!; try done. right. by exists last.
Qed.

Lemma cooldown_follows_the_date_sent_witness :
  ∃ u',
    users (DonorAccount.availability (Some "d1") (Some true) (Some (Some 0))
             (Requests.complete 3000 3001 (Some "p1") (ObjectIdText "r1") st_matched).2).2
      !! "d1" = Some u'
    ∧ ∀ t, isEligibleToDonate t u' = true ↔ 56 * day ≤ t - 0.
Proof.
  apply (cooldown_follows_the_date_sent "d1" 0 _
           (Requests.mark_donated 3001 sample_donor)).
  - discriminate.
  - vm_compute. reflexivity.
  - reflexivity.
  - reflexivity.
Defined.

(** ** Donor search, further *)

Section search_more.
Import Donors.
Context {E : External}.

(** Every record of an answer is the record of a stored user who passed
    the eligibility check. *)
Lemma available_members now (q : Query) (st : Store) (donors : list Obj) :
  available now q st = Ok donors →
  ∀ o, o ∈ donors →
       ∃ id u lat lng, users st !! id = Some u
                       ∧ isEligibleToDonate (now id) u = true
                       ∧ o = search_hit lat lng (id, u).
Proof.
  unfold available.
  destruct (negb (truthy (q_lat q)) || negb (truthy (q_lng q))); [done |].
  destruct (bloodType_condition (q_bloodType q)) as [bt |]; [| done].
  destruct (parseFloat (default "" (q_lng q))) as [lng |]; [| done].
  destruct (parseFloat (default "" (q_lat q))) as [lat |]; [| done].
  destruct (match q_radius q with Some r => toNumber r | None => JNum 50 end)
    as [radius |]; [| done].
  destruct (near_accepts lng lat (radius * 1000)); [| done].
  intros [= <-] o. rewrite sort_by_perm.
  intros (d' & -> & [Hel (d & -> & Hd)%list_elem_of_fmap]%list_elem_of_filter)
           %list_elem_of_fmap.
  unfold find_donors in Hd. rewrite sort_by_perm in Hd.
  apply list_elem_of_filter in Hd as [_ Hd]. destruct d as [id u].
  apply elem_of_map_to_list in Hd.
  exists id, u, lat, lng. split_and!; [done | exact Hel | done].
Qed.

Lemma search_hit_id lat lng (id : Id) (u : User) :
  obj_get "_id" (search_hit lat lng (id, u)) = Some (VStr id).
Proof.
  unfold search_hit, with_distance.
  by rewrite obj_get_set_ne by discriminate.
Qed.

End search_more.

(** X21. A completed donation takes the donor out of donor search: after
    [POST /:id/complete] on a matched request, no search, whatever its
    parameters and whenever it runs, returns the record of the first
    accepted donor of that request. *)
Theorem donor_hidden_after_completion (E : External) now now'
    (userId requestId : Id) (st : Store) (r : BloodRequest) (m : MatchedDonor)
    (clock : Id → Date) (q : Donors.Query) (donors : list Obj) :
  userId ≠ "" → requests st !! requestId = Some r →
  may_complete userId r → status r = "matched" →
  first_accepted r = Some m →
  Donors.available clock q
    (Requests.complete now now' (Some userId) (ObjectIdText requestId) st).2
  = Donors.Ok donors →
  ∀ o, o ∈ donors → obj_get "_id" o ≠ Some (VStr (donor m)).
Proof.
  intros Hu Hr Hm Hs Hf Hav o Ho Hid.
  destruct (available_members clock q _ donors Hav o Ho)
    as (id & u & lat & lng & Hl & Hel & ->).
  rewrite search_hit_id in Hid. injection Hid as ->.
  rewrite (complete_users now now' userId requestId st r) in Hl by done.
  unfold donated in Hl. rewrite Hf, lookup_alter in Hl.
  rewrite decide_True in Hl by done.
  destruct (users st !! donor m) as [u0 |]; [| done].
  injection Hl as <-. by rewrite mark_donated_ineligible in Hel.
Qed.

Lemma donor_hidden_after_completion_witness :
  Donors.available (E := sample_external) (λ _, 0) sample_query
    (Requests.complete 3000 3001 (Some "p1") (ObjectIdText "r1") st_matched).2 = Donors.Ok []
  ∧ ∀ o, o ∈ [] → obj_get "_id" o ≠ Some (VStr "d1").
Proof.
  assert (H : Donors.available (E := sample_external) (λ _, 0) sample_query
                (Requests.complete 3000 3001 (Some "p1") (ObjectIdText "r1") st_matched).2
              = Donors.Ok []) by (vm_compute; reflexivity).
  split; [exact H |].
  apply (donor_hidden_after_completion sample_external 3000 3001 "p1" "r1"
           st_matched r1_matched
           (Requests.new_match "d1" "accepted" 1000 1001 None)
           (λ _, 0) sample_query []).
  - discriminate.
  - apply st_matched_lookup.
  - by left.
  - reflexivity.
  - reflexivity.
  - exact H.
Defined.

Section search_answers.
Import Donors.
Context {E : External}.

(** What an answer with a list says about the query and the list. *)
Lemma available_Ok now (q : Query) (st : Store) (donors : list Obj) :
  available now q st = Ok donors →
  ∃ bt lng lat radius,
    bloodType_condition (q_bloodType q) = Some bt
    ∧ parseFloat (default "" (q_lng q)) = JNum lng
    ∧ parseFloat (default "" (q_lat q)) = JNum lat
    ∧ match q_radius q with Some r => toNumber r | None => JNum 50 end
      = JNum radius
    ∧ ∀ o, o ∈ donors ↔
           ∃ id u, users st !! id = Some u
                   ∧ matches_query bt lng lat (radius * 1000) (id, u) = true
                   ∧ isEligibleToDonate (now id) u = true
                   ∧ o = search_hit lat lng (id, u).
Proof.
  unfold available.
  destruct (negb (truthy (q_lat q)) || negb (truthy (q_lng q))); [done |].
  destruct (bloodType_condition (q_bloodType q)) as [bt |]; [| done].
  destruct (parseFloat (default "" (q_lng q))) as [lng |]; [| done].
  destruct (parseFloat (default "" (q_lat q))) as [lat |]; [| done].
  destruct (match q_radius q with Some r => toNumber r | None => JNum 50 end)
    as [radius |]; [| done].
  destruct (near_accepts lng lat (radius * 1000)); [| done].
  intros [= <-]. exists bt, lng, lat, radius. split_and!; try done.
  intros o. rewrite sort_by_perm, list_elem_of_fmap. split.
  - intros (d' & -> & [Hel (d & -> & Hd)%list_elem_of_fmap]%list_elem_of_filter).
    unfold find_donors in Hd. rewrite sort_by_perm in Hd.
    apply list_elem_of_filter in Hd as [Hq Hd]. destruct d as [id u].
    apply elem_of_map_to_list in Hd.
    exists id, u. split_and!; [done | done | exact Hel | done].
  - intros (id & u & Hu & Hq & Hel & ->).
    exists (id, select_public u). split; [done |].
    apply list_elem_of_filter. split; [exact Hel |].
    apply list_elem_of_fmap. exists (id, u). split; [done |].
    unfold find_donors. rewrite sort_by_perm.
    apply list_elem_of_filter. split; [done |]. by apply elem_of_map_to_list.
Qed.

Lemma matches_query_wider bt lng lat (m1 m2 : Q) (d : Id * User) :
  (m1 <= m2)%Q →
  matches_query bt lng lat m1 d = true → matches_query bt lng lat m2 d = true.
Proof.
  intros Hle. unfold matches_query. rewrite !andb_true_iff.
  intros (? & Hr). split; [done |].
  destruct (location d.2) as [p |]; [| done].
  apply Qle_bool_iff. apply Qle_bool_iff in Hr. by eapply Qle_trans.
Qed.

End search_answers.

(** X22. Widening the radius never loses a donor: of two searches that
    differ only in the radius and are both answered with a list, the one
    with the larger radius returns every record the other returns. *)
Theorem search_radius_monotone (E : External) (now : Id → Date)
    (bloodType lat lng rad1 rad2 : option string) (r1 r2 : Q) (st : Store)
    (donors1 donors2 : list Obj) :
  match rad1 with Some r => toNumber r | None => JNum 50 end = JNum r1 →
  match rad2 with Some r => toNumber r | None => JNum 50 end = JNum r2 →
  (r1 <= r2)%Q →
  Donors.available now
    {| Donors.q_bloodType := bloodType; Donors.q_lat := lat;
       Donors.q_lng := lng; Donors.q_radius := rad1 |} st = Donors.Ok donors1 →
  Donors.available now
    {| Donors.q_bloodType := bloodType; Donors.q_lat := lat;
       Donors.q_lng := lng; Donors.q_radius := rad2 |} st = Donors.Ok donors2 →
  ∀ o, o ∈ donors1 → o ∈ donors2.
Proof.
  intros Hr1 Hr2 Hle H1 H2 o Ho.
  apply available_Ok in H1 as (bt1 & lng1 & lat1 & x1 & Hbt1 & Hlng1 & Hlat1
                               & Hx1 & Hmem1).
  apply available_Ok in H2 as (bt2 & lng2 & lat2 & x2 & Hbt2 & Hlng2 & Hlat2
                               & Hx2 & Hmem2).
  cbn in *. rewrite Hbt1 in Hbt2. injection Hbt2 as <-.
  rewrite Hlng1 in Hlng2. injection Hlng2 as <-.
  rewrite Hlat1 in Hlat2. injection Hlat2 as <-.
  rewrite Hr1 in Hx1. injection Hx1 as <-.
  rewrite Hr2 in Hx2. injection Hx2 as <-.
  apply Hmem2. apply Hmem1 in Ho as (id & u & Hu & Hq & Hel & ->).
  exists id, u. split_and!; try done.
  eapply matches_query_wider; [| exact Hq].
  apply Qmult_le_compat_r; [done | discriminate].
Qed.

Lemma search_radius_monotone_witness :
  Donors.available (E := sample_external_10) (λ _, 0)
    {| Donors.q_bloodType := Some "AB-"; Donors.q_lat := Some "13";
       Donors.q_lng := Some "77.4"; Donors.q_radius := Some "10" |}
    no_requests = Donors.Ok [sample_hit]
  ∧ sample_hit ∈ [sample_hit].
Proof.
  assert (H10 : Donors.available (E := sample_external_10) (λ _, 0)
                  {| Donors.q_bloodType := Some "AB-";
                     Donors.q_lat := Some "13"; Donors.q_lng := Some "77.4";
                     Donors.q_radius := Some "10" |}
                  no_requests = Donors.Ok [sample_hit])
    by (vm_compute; reflexivity).
  split; [exact H10 |].
  apply (search_radius_monotone sample_external_10 (λ _, 0) (Some "AB-")
           (Some "13") (Some "77.4") (Some "10") None 10 50 no_requests
           [sample_hit] [sample_hit]).
  - reflexivity.
  - reflexivity.
  - discriminate.
  - exact H10.
  - vm_compute. reflexivity.
  - apply list_elem_of_here.
Defined.

(** X23. The answers of donor search: 400 exactly when latitude or
    longitude is missing or empty; otherwise a list or 500, never
    another error; and an empty [bloodType] parameter is treated as no
    parameter. *)
Theorem available_outcomes (E : External) (now : Id → Date) (q : Donors.Query)
    (st : Store) :
  (Donors.available now q st
   = Donors.Error 400 "Latitude and longitude are required"
   ↔ truthy (Donors.q_lat q) = false ∨ truthy (Donors.q_lng q) = false)
  ∧ ((∃ donors, Donors.available now q st = Donors.Ok donors)
     ∨ Donors.available now q st = Donors.Error 500 "Server error"
     ∨ Donors.available now q st
       = Donors.Error 400 "Latitude and longitude are required")
  ∧ Donors.available now
      {| Donors.q_bloodType := Some ""; Donors.q_lat := Donors.q_lat q;
         Donors.q_lng := Donors.q_lng q; Donors.q_radius := Donors.q_radius q |}
      st
    = Donors.available now
        {| Donors.q_bloodType := None; Donors.q_lat := Donors.q_lat q;
           Donors.q_lng := Donors.q_lng q; Donors.q_radius := Donors.q_radius q |}
        st.
Proof.
  split_and!; [| | reflexivity].
  - unfold Donors.available.
    destruct (truthy (Donors.q_lat q)), (truthy (Donors.q_lng q)); cbn;
      try (split; [auto | done]).
    split; [| by intros [? | ?]].
    repeat case_match; done.
  - unfold Donors.available. repeat case_match; eauto.
Qed.

(** X24. The distance a record reports is [geolib]'s metres in kilometres
    to one decimal, rounded to nearest: it lies within 50 metres of the
    measured distance, and a donor measured farther never reports less. *)
Theorem to_km_rounds (d d' : Z) :
  (inject_Z d / 1000 - (1 # 20) < Donors.to_km d)%Q
  ∧ (Donors.to_km d <= inject_Z d / 1000 + (1 # 20))%Q
  ∧ (d ≤ d' → (Donors.to_km d <= Donors.to_km d')%Q).
Proof.
  unfold Donors.to_km, Math_round. split_and!.
  - set (x := (inject_Z d / 1000 * 10 + (1 # 2))%Q).
    pose proof (Qlt_floor x) as H2.
    rewrite inject_Z_plus in H2. unfold x in *. clear x.
    set (n := inject_Z (Qfloor _)) in *. set (y := inject_Z d) in *.
    unfold Qdiv in *. change (/ 1000)%Q with (1 # 1000)%Q in *.
    change (/ 10)%Q with (1 # 10)%Q in *. change (inject_Z 1) with 1%Q in *.
    lra.
  - set (x := (inject_Z d / 1000 * 10 + (1 # 2))%Q).
    pose proof (Qfloor_le x) as H1. unfold x in *. clear x.
    set (n := inject_Z (Qfloor _)) in *. set (y := inject_Z d) in *.
    unfold Qdiv in *. change (/ 1000)%Q with (1 # 1000)%Q in *.
    change (/ 10)%Q with (1 # 10)%Q in *.
    lra.
  - intros H. apply Qmult_le_compat_r; [| discriminate].
    rewrite <- Zle_Qle. apply Qfloor_resp_le.
    rewrite Zle_Qle in H.
    set (y := inject_Z d) in *. set (y' := inject_Z d') in *.
    unfold Qdiv. change (/ 1000)%Q with (1 # 1000)%Q. lra.
Qed.

(** ** [GET /stats/overview] *)

Section overview.
Import Overview.

Lemma sum_list_indicator (ks : list string) (a : string) :
  NoDup ks → a ∈ ks →
  sum_list ((λ k, if decide (a = k) then 1 else 0)%nat <$> ks) = 1%nat.
Proof.
  induction 1 as [| k ks Hk Hks IH]; [by intros ?%elem_of_nil |].
  intros [-> | Ha]%elem_of_cons; cbn.
  - rewrite decide_True by done. f_equal.
    clear IH Hks. induction ks as [| k' ks IH]; [done |]. cbn.
    rewrite decide_False by (intros ->; apply Hk; by left).
    apply IH. intros ?. apply Hk. by right.
  - rewrite decide_False by (intros ->; done). by apply IH.
Qed.

Lemma sum_list_pointwise (f g : string → nat) (ks : list string) :
  sum_list ((λ k, f k + g k)%nat <$> ks)
  = (sum_list (f <$> ks) + sum_list (g <$> ks))%nat.
Proof. induction ks as [| k ks IH]; cbn; [done | lia]. Qed.

(** The groups partition the documents. *)
Lemma group_sizes (key : BloodRequest → string) (docs : list BloodRequest)
    (ks : list string) :
  NoDup ks → (∀ r, r ∈ docs → key r ∈ ks) →
  sum_list ((λ k, length (filter (λ r, key r = k) docs)) <$> ks) = length docs.
Proof.
  intros Hks. induction docs as [| r docs IH]; intros Hin.
  - clear. induction ks as [| k ks IHk]; [done |]. cbn. exact IHk.
  - erewrite (list_fmap_ext _ (λ k, (if decide (key r = k) then 1 else 0)
                                    + length (filter (λ r, key r = k) docs))%nat);
      [| intros i k _; rewrite filter_cons; by case_decide].
    rewrite sum_list_pointwise, IH, sum_list_indicator; [done | done | ..].
    + apply Hin. by left.
    + intros r' Hr'. apply Hin. by right.
Qed.

Lemma group_count_sum (key : BloodRequest → string) (docs : list BloodRequest) :
  sum_list (group_count key docs).*2 = length docs.
Proof.
  unfold group_count. rewrite <- list_fmap_compose.
  apply group_sizes; [apply NoDup_remove_dups |].
  intros r Hr. apply elem_of_remove_dups. by apply list_elem_of_fmap_2.
Qed.

Lemma group_count_keys (key : BloodRequest → string) (docs : list BloodRequest) :
  (group_count key docs).*1 = remove_dups (key <$> docs).
Proof.
  unfold group_count. rewrite <- list_fmap_compose.
  apply list_fmap_id.
Qed.

Lemma filter_none {A} (P : A → Prop) `{∀ x, Decision (P x)} (l : list A) :
  (∀ x, x ∈ l → ¬ P x) → filter P l = [].
Proof.
  induction l as [| x l IH]; [done |]. intros Hl.
  rewrite filter_cons_False by (apply Hl; by left).
  apply IH. intros y Hy. apply Hl. by right.
Qed.

(** A breakdown gives for every key the number of documents with it. *)
Lemma count_of_group_count (key : BloodRequest → string)
    (docs : list BloodRequest) (k : string) :
  count_of k (group_count key docs) = length (filter (λ r, key r = k) docs).
Proof.
  unfold count_of.
  destruct (decide (k ∈ key <$> docs)) as [Hk | Hk].
  - erewrite (elem_of_list_to_map_1 (group_count key docs) k); [done | |].
    + rewrite group_count_keys. apply NoDup_remove_dups.
    + unfold group_count. apply list_elem_of_fmap.
      exists k. split; [done |]. by apply elem_of_remove_dups.
  - rewrite not_elem_of_list_to_map_1
      by (by rewrite group_count_keys, elem_of_remove_dups).
    cbn. rewrite filter_none; [done |].
    intros r Hr <-. apply Hk. by apply list_elem_of_fmap_2.
Qed.

Lemma length_filter_either (docs : list BloodRequest) (a b : string) :
  a ≠ b →
  length (filter (λ r, status r ∈ [a; b]) docs)
  = (length (filter (λ r, status r = a) docs)
     + length (filter (λ r, status r = b) docs))%nat.
Proof.
  intros Hab. induction docs as [| r docs IH]; [done |].
  rewrite !filter_cons.
  destruct (decide (status r = a)) as [Ha | Ha];
    destruct (decide (status r = b)) as [Hb | Hb]; try congruence.
  - rewrite decide_True by (rewrite Ha; by left). cbn. lia.
  - rewrite decide_True by (rewrite Hb; right; by left). cbn. lia.
  - rewrite decide_False; [done |].
    by intros [? | [? | ?%elem_of_nil]%elem_of_cons]%elem_of_cons.
Qed.

End overview.

(** X25. The figures of [GET /stats/overview] agree with each other: the
    counts of the status breakdown add up to the total, and so do those
    of the urgency breakdown; the number of active requests is the count
    of status active plus that of status matched; every status appears
    at most once in the breakdown and never with a zero count; and the
    total is the number of stored requests. *)
Theorem overview_consistent (st : Store) :
  let o := Overview.overview st in
  sum_list (Overview.statusBreakdown o).*2 = Overview.totalRequests o
  ∧ sum_list (Overview.urgencyBreakdown o).*2 = Overview.totalRequests o
  ∧ Overview.activeRequests o
    = (Overview.count_of "active" (Overview.statusBreakdown o)
       + Overview.count_of "matched" (Overview.statusBreakdown o))%nat
  ∧ (Overview.activeRequests o ≤ Overview.totalRequests o)%nat
  ∧ NoDup (Overview.statusBreakdown o).*1
  ∧ (∀ k n, (k, n) ∈ Overview.statusBreakdown o → (1 ≤ n)%nat)
  ∧ Overview.totalRequests o = size (requests st).
Proof.
  cbn. split_and!.
  - apply group_count_sum.
  - apply group_count_sum.
  - rewrite !count_of_group_count. by apply length_filter_either.
  - apply length_filter.
  - rewrite group_count_keys. apply NoDup_remove_dups.
  - intros k n (k' & [= -> ->] & Hk)%list_elem_of_fmap.
    rewrite elem_of_remove_dups in Hk.
    apply list_elem_of_fmap in Hk as (r & -> & Hr).
    assert (Hin : r ∈ filter (λ r', status r' = status r)
                         (map_to_list (requests st)).*2)
      by by apply list_elem_of_filter.
    destruct (filter _ _); [by apply elem_of_nil in Hin | cbn; lia].
  - by rewrite length_fmap, length_map_to_list.
Qed.

(** X26. The total of the statistics never goes down, since no operation
    deletes a request: an operation leaves it as it is or, when it is
    [POST /request], may raise it by one. *)
Theorem total_never_decreases (op : Op) (st : Store) :
  let total := λ st, Overview.totalRequests (Overview.overview st) in
  total (run op st).2 = total st
  ∨ (total (run op st).2 = S (total st)
     ∧ ∃ newId user body, op = CreateRequest newId user body).
Proof.
  cbn. rewrite !length_fmap, !length_map_to_list.
  destruct (run_effect op st) as [-> | (id & r' & -> & Hop)]; [by left |].
  destruct op as [newId user body | | |]; cbn in Hop.
  - destruct Hop as (-> & Hn & _). right.
    split; [by apply map_size_insert_None | eauto].
  - destruct Hop as (_ & _ & ? & r & _ & Hr & _). left.
    by eapply map_size_insert_Some.
  - destruct Hop as (_ & _ & r & Hr & _). left. by eapply map_size_insert_Some.
  - destruct Hop as (_ & r & Hr & _). left. by eapply map_size_insert_Some.
Qed.

(** ** The listing of open requests *)

Section listing.
Import Listing.

Lemma insert_with_perm {A} (le : A → A → bool) (x : A) (l : list A) :
  insert_with le x l ≡ₚ x :: l.
Proof.
  induction l as [| y l IH]; cbn; [done |].
  destruct (le x y); [done |]. rewrite IH. apply Permutation_swap.
Qed.

Lemma sort_with_perm {A} (le : A → A → bool) (l : list A) :
  sort_with le l ≡ₚ l.
Proof.
  induction l as [| x l IH]; cbn; [done |].
  by rewrite insert_with_perm, IH.
Qed.

Lemma insert_with_sorted {A} (le : A → A → bool) (x : A) (l : list A) :
  (∀ a b, le a b = false → le b a = true) →
  (∀ a b c, le a b = true → le b c = true → le a c = true) →
  StronglySorted (λ a b, le a b = true) l →
  StronglySorted (λ a b, le a b = true) (insert_with le x l).
Proof.
  intros Htot Htr. induction 1 as [| y l Hs IH Hy]; cbn.
  - repeat constructor.
  - destruct (le x y) eqn:Hxy.
    + constructor; [by constructor |]. constructor; [done |].
      eapply Forall_impl; [exact Hy |]. intros z Hz. eauto.
    + constructor; [done |]. rewrite insert_with_perm.
      constructor; [eauto | done].
Qed.

Lemma sort_with_sorted {A} (le : A → A → bool) (l : list A) :
  (∀ a b, le a b = false → le b a = true) →
  (∀ a b c, le a b = true → le b c = true → le a c = true) →
  StronglySorted (λ a b, le a b = true) (sort_with le l).
Proof.
  intros Htot Htr. induction l as [| x l IH]; cbn; [constructor |].
  by apply insert_with_sorted.
Qed.

Lemma StronglySorted_filter_keep {A} (R : relation A) (P : A → Prop)
    `{!∀ x, Decision (P x)} (l : list A) :
  StronglySorted R l → StronglySorted R (filter P l).
Proof.
  induction 1 as [| x l Hs IH Hx]; [constructor |].
  rewrite filter_cons. case_decide; [| done].
  constructor; [done |]. rewrite Forall_forall in Hx |- *.
  intros y [_ Hy]%list_elem_of_filter. by apply Hx.
Qed.

Lemma StronglySorted_lookup_lt {A} (R : relation A) (l : list A)
    (i j : nat) (a b : A) :
  StronglySorted R l → l !! i = Some a → l !! j = Some b → (i < j)%nat →
  R a b.
Proof.
  intros Hs. revert i j. induction Hs as [| x l Hs IH Hx]; intros i j.
  - by rewrite lookup_nil.
  - destruct i as [| i], j as [| j]; cbn; try lia.
    + intros [= ->] Hb _. rewrite Forall_forall in Hx.
      apply Hx. by eapply list_elem_of_lookup_2.
    + intros Ha Hb Hlt. apply (IH i j); [done | done | lia].
Qed.

Lemma leb_transitive (s1 s2 s3 : string) :
  String.leb s1 s2 = true → String.leb s2 s3 = true →
  String.leb s1 s3 = true.
Proof.
  rewrite <- !Is_true_true.
  exact (@transitivity _ String.le _ s1 s2 s3).
Qed.

Lemma precedes_total createdAt a b :
  precedes createdAt a b = false → precedes createdAt b a = true.
Proof.
  unfold precedes. intros H.
  destruct (decide (urgency a.2 = urgency b.2)) as [e | n].
  - rewrite (bool_decide_eq_true_2 _ e) in H.
    rewrite (bool_decide_eq_true_2 _ (eq_sym e)).
    apply bool_decide_eq_false in H. apply bool_decide_eq_true. lia.
  - rewrite (bool_decide_eq_false_2 _ n) in H.
    rewrite (bool_decide_eq_false_2 (urgency b.2 = urgency a.2))
      by congruence.
    destruct (String.leb_total (urgency a.2) (urgency b.2)); congruence.
Qed.

Lemma precedes_transitive createdAt a b c :
  precedes createdAt a b = true → precedes createdAt b c = true →
  precedes createdAt a c = true.
Proof.
  unfold precedes.
  destruct (decide (urgency a.2 = urgency b.2)) as [eab | nab];
    destruct (decide (urgency b.2 = urgency c.2)) as [ebc | nbc];
    rewrite ?(bool_decide_eq_true_2 _ eab), ?(bool_decide_eq_false_2 _ nab),
      ?(bool_decide_eq_true_2 _ ebc), ?(bool_decide_eq_false_2 _ nbc).
  - rewrite (bool_decide_eq_true_2 (urgency a.2 = urgency c.2))
      by congruence.
    rewrite !bool_decide_eq_true. lia.
  - rewrite (bool_decide_eq_false_2 (urgency a.2 = urgency c.2))
      by congruence.
    intros _. by rewrite eab.
  - rewrite (bool_decide_eq_false_2 (urgency a.2 = urgency c.2))
      by congruence.
    intros H _. by rewrite <- ebc.
  - intros Hba Hcb.
    destruct (decide (urgency a.2 = urgency c.2)) as [eac | nac].
    + exfalso. apply nab. apply String.leb_antisym; [| done].
      by rewrite eac.
    + rewrite (bool_decide_eq_false_2 _ nac). by eapply leb_transitive.
Qed.

Lemma precedes_urgency createdAt a b :
  precedes createdAt a b = true →
  String.leb (urgency b.2) (urgency a.2) = true.
Proof.
  unfold precedes. case_bool_decide as He; [| done].
  intros _. rewrite He. apply Is_true_true. exact (reflexivity (R := String.le) _).
Qed.

Lemma matches_spec bloodTypeAsked urgencyAsked (d : Id * BloodRequest) :
  matches bloodTypeAsked urgencyAsked d = true
  ↔ (status d.2 = "active" ∨ status d.2 = "matched")
    ∧ (truthy bloodTypeAsked = true →
       bloodType d.2 = default "" bloodTypeAsked)
    ∧ (truthy urgencyAsked = true →
       urgency d.2 = default "" urgencyAsked).
Proof.
  unfold matches.
  rewrite !andb_true_iff, bool_decide_eq_true, !elem_of_cons, elem_of_nil.
  destruct (truthy bloodTypeAsked), (truthy urgencyAsked);
    rewrite ?bool_decide_eq_true; intuition congruence.
Qed.

Lemma active_sorted createdAt within bloodTypeAsked urgencyAsked lat lng st :
  StronglySorted (λ a b, precedes createdAt a b = true)
    (active createdAt within bloodTypeAsked urgencyAsked lat lng st).
Proof.
  unfold active.
  assert (Hs : ∀ l, StronglySorted (λ a b, precedes createdAt a b = true)
                      (sort_with (precedes createdAt) l)).
  { intros l. apply sort_with_sorted.
    - apply precedes_total.
    - apply precedes_transitive. }
  destruct (_ && _); [apply StronglySorted_filter_keep |]; apply Hs.
Qed.

Lemma active_elem createdAt within bloodTypeAsked urgencyAsked lat lng st
    (id : Id) (r : BloodRequest) :
  (id, r) ∈ active createdAt within bloodTypeAsked urgencyAsked lat lng st
  ↔ requests st !! id = Some r
    ∧ matches bloodTypeAsked urgencyAsked (id, r) = true
    ∧ (truthy lat = true → truthy lng = true → within r = true).
Proof.
  unfold active.
  destruct (truthy lat), (truthy lng); cbn;
    rewrite ?list_elem_of_filter, sort_with_perm, list_elem_of_filter,
      elem_of_map_to_list; cbn; intuition congruence.
Qed.

End listing.

(** X27. [GET /active] lists exactly the stored requests that are active
    or matched, of the blood type asked for when one is asked for, of
    the urgency asked for when one is asked for, and, when both [lat]
    and [lng] are given, passing the location test; a completed or
    cancelled request is never listed, and no request is listed twice. *)
Theorem active_lists_open_requests (createdAt : Id → Date)
    (within : BloodRequest → bool)
    (bloodTypeAsked urgencyAsked lat lng : option string) (st : Store) :
  let listed := Listing.active createdAt within bloodTypeAsked urgencyAsked
                  lat lng st in
  (∀ (id : Id) (r : BloodRequest),
     (id, r) ∈ listed
     ↔ requests st !! id = Some r
       ∧ (status r = "active" ∨ status r = "matched")
       ∧ (truthy bloodTypeAsked = true →
          bloodType r = default "" bloodTypeAsked)
       ∧ (truthy urgencyAsked = true →
          urgency r = default "" urgencyAsked)
       ∧ (truthy lat = true → truthy lng = true → within r = true))
  ∧ NoDup listed.*1.
Proof.
  cbn zeta. split.
  - intros id r. rewrite active_elem, matches_spec. cbn. tauto.
  - unfold Listing.active.
    assert (Hn : NoDup (Listing.sort_with (Listing.precedes createdAt)
                   (filter (λ d, Listing.matches bloodTypeAsked urgencyAsked d
                                 = true)
                      (map_to_list (requests st)))).*1).
    { rewrite sort_with_perm.
      eapply sublist_NoDup; [apply (NoDup_fst_map_to_list (requests st)) |].
      apply fmap_sublist, sublist_filter. }
    destruct (_ && _); [| done].
    eapply sublist_NoDup; [exact Hn |].
    apply fmap_sublist, sublist_filter.
Qed.

(** X28. The listing of [GET /active] is ordered by the urgency string,
    descending, and among requests of one urgency by creation time, the
    newest first.  The order of the strings is not the order of the
    levels: below a critical request only critical requests are listed,
    and above a medium request only medium ones, for requests whose
    urgency is one of the four levels. *)
Theorem active_order (createdAt : Id → Date) (within : BloodRequest → bool)
    (bloodTypeAsked urgencyAsked lat lng : option string) (st : Store)
    (i j : nat) (a b : Id * BloodRequest) :
  let listed := Listing.active createdAt within bloodTypeAsked urgencyAsked
                  lat lng st in
  listed !! i = Some a → listed !! j = Some b → (i < j)%nat →
  String.leb (urgency b.2) (urgency a.2) = true
  ∧ (urgency a.2 = urgency b.2 → createdAt b.1 ≤ createdAt a.1)
  ∧ (urgency a.2 = "critical" → urgency b.2 ∈ urgency_enum →
     urgency b.2 = "critical")
  ∧ (urgency b.2 = "medium" → urgency a.2 ∈ urgency_enum →
     urgency a.2 = "medium").
Proof.
  cbn zeta. intros Ha Hb Hlt.
  pose proof (StronglySorted_lookup_lt _ _ i j a b
                (active_sorted createdAt within bloodTypeAsked urgencyAsked
                   lat lng st) Ha Hb Hlt) as Hp.
  cbn beta in Hp. pose proof (precedes_urgency _ _ _ Hp) as Hu.
  split_and!.
  - done.
  - intros He. unfold Listing.precedes in Hp.
    rewrite (bool_decide_eq_true_2 _ He) in Hp.
    by apply bool_decide_eq_true in Hp.
  - intros Hc Hin. rewrite Hc in Hu. unfold urgency_enum in Hin.
    rewrite !elem_of_cons, elem_of_nil in Hin.
    destruct Hin as [E | [E | [E | [E | []]]]]; rewrite E in Hu |- *;
      first [done | by vm_compute in Hu].
  - intros Hm Hin. rewrite Hm in Hu. unfold urgency_enum in Hin.
    rewrite !elem_of_cons, elem_of_nil in Hin.
    destruct Hin as [E | [E | [E | [E | []]]]]; rewrite E in Hu |- *;
      first [done | by vm_compute in Hu].
Qed.

Lemma active_order_witness :
  ∃ a b, sample_listing !! 0%nat = Some a ∧ sample_listing !! 1%nat = Some b
         ∧ urgency a.2 = "low" ∧ urgency b.2 = "critical"
         ∧ String.leb (urgency b.2) (urgency a.2) = true.
Proof.
  assert (H0 : is_Some (sample_listing !! 0%nat)) by (vm_compute; eauto).
  assert (H1 : is_Some (sample_listing !! 1%nat)) by (vm_compute; eauto).
  destruct H0 as [a Ha], H1 as [b Hb]. exists a, b.
  split_and!; [done | done | | |].
  - vm_compute in Ha. by injection Ha as <-.
  - vm_compute in Hb. by injection Hb as <-.
  - apply (active_order (λ _, 0) (λ _, true) None None None None
             st_two_requests 0 1 a b Ha Hb). lia.
Defined.

(** X29. A request leaves the listing when it is closed: after a
    cancellation or a completion answered with 200, [GET /active] does
    not list the request, whatever the filters. *)
Theorem closed_request_leaves_listing (op : Op) (now now' : Date)
    (userId requestId : Id) (reason : option string) (st : Store)
    (createdAt : Id → Date) (within : BloodRequest → bool)
    (bloodTypeAsked urgencyAsked lat lng : option string) :
  userId ≠ "" →
  op = CancelRequest now (Some userId) (ObjectIdText requestId) reason
  ∨ op = CompleteRequest now now' (Some userId) (ObjectIdText requestId) →
  http_status (run op st).1 = 200 →
  ∀ r, (requestId, r) ∉ Listing.active createdAt within bloodTypeAsked
                          urgencyAsked lat lng (run op st).2.
Proof.
  intros Hu Hop H200 r Hin.
  apply active_elem in Hin as (Hl & Hm & _).
  apply matches_spec in Hm as (Hs & _). cbn in Hs.
  destruct Hop as [-> | ->]; cbn [run] in *.
  - rewrite cancel_cases in H200, Hl by done.
    destruct (requests st !! requestId) as [r0 |]; [| done].
    destruct (Patients.cancellable userId r0); [| done]. cbn in Hl.
    rewrite lookup_insert_eq in Hl. injection Hl as <-.
    cbn in Hs. by destruct Hs.
  - rewrite complete_cases in H200, Hl by done.
    destruct (requests st !! requestId) as [r0 |]; [| done].
    destruct (decide (may_complete userId r0)); [| done].
    destruct (decide (status r0 = "matched")); [| done].
    destruct (BloodRequest_validate (completed now r0)); [| done].
    cbn in Hl. rewrite lookup_insert_eq in Hl. injection Hl as <-.
    cbn in Hs. by destruct Hs.
Qed.

Lemma closed_request_leaves_listing_witness :
  ("r1", r1_matched) ∈ Listing.active (λ _, 0) (λ _, true) None None None None
                         st_matched
  ∧ ("r1", r1_matched)
    ∉ Listing.active (λ _, 0) (λ _, true) None None None None
        (run (CancelRequest 3000 (Some "p1") (ObjectIdText "r1") None) st_matched).2.
Proof.
  split.
  { apply active_elem. split; [apply st_matched_lookup |].
    split; [by vm_compute | done]. }
  apply (closed_request_leaves_listing _ 3000 0 "p1" "r1" None st_matched).
  - done.
  - by left.
  - by vm_compute.
Defined.

(** X30. A request is listed once created: after [POST /request]
    answers 201, the unfiltered listing holds the new request under its
    id, and so does the listing filtered by the blood type and urgency
    of the body. *)
Theorem created_request_is_listed (newId : Id) (user : option Id)
    (body : Patients.CreateBody) (st : Store) (createdAt : Id → Date)
    (within : BloodRequest → bool) :
  let out := Patients.createRequest newId user body st in
  http_status out.1 = 201 →
  ∃ r, out.1 = Json 201 "Blood request created successfully" (Some r)
       ∧ (newId, r) ∈ Listing.active createdAt within None None None None
                        out.2
       ∧ (newId, r) ∈ Listing.active createdAt within
                        (Patients.cb_bloodType body)
                        (Patients.cb_urgency body) None None out.2.
Proof.
  cbn zeta. unfold Patients.createRequest.
  destruct (Patients.validationResult body) eqn:Hv; [| done].
  destruct user as [userId |]; [| done].
  destruct (negb (truthy _)); [done |].
  destruct (BloodRequest_validate _) eqn:Hb; [| done]. cbn [negb].
  destruct (Patients.geo_index_accepts _); [| done]. cbn [negb].
  destruct (requests st !! newId) eqn:Hl; [done |]. cbn [fst snd].
  intros _. eexists. split; [done |].
  rewrite !active_elem, !matches_spec. cbn.
  rewrite lookup_insert_eq. split_and!; try done; by left.
Qed.

Lemma created_request_is_listed_witness :
  ∃ r, (Patients.createRequest "r2" (Some "p1") sample_body_low st_active).1
       = Json 201 "Blood request created successfully" (Some r)
       ∧ ("r2", r) ∈ Listing.active (λ _, 0) (λ _, true) None None None None
                       st_two_requests
       ∧ ("r2", r) ∈ Listing.active (λ _, 0) (λ _, true) (Some "A+")
                       (Some "low") None None st_two_requests.
Proof.
  apply (created_request_is_listed "r2" (Some "p1") sample_body_low
           st_active (λ _, 0) (λ _, true)).
  by vm_compute.
Defined.
